(** * The TDA Mapper of tmap: projection and mapping stages

    A shallow embedding of [src/tmap/tda/mapper.py] (class [Mapper], methods
    [filter] and [map]) together with the properties the specification
    states about them.

    Conventions of the embedding.
    - A two-dimensional NumPy array is a record carrying its shape and its
      rows; entries are binary64 floats with the arithmetic of IEEE 754
      (Rocq's primitive floats, where [nan] is the one NaN).  Arrays are
      laid out row after row, as [np.array] and the indexing [a[mask, :]]
      build them.
    - A Python exception is a value of [exn]; a call that may raise returns
      a [result].
    - A Python [dict] is an insertion-ordered association list.
    - The [verbose] flag only drives [print] and [tqdm]; neither changes a
      value or the order of iteration, so they are left out. *)

From Stdlib Require Import QArith Sorted PrimFloat SpecFloat FloatOps.
From stdpp Require Import base list strings gmap.

Local Open Scope nat_scope.

(* ===================================================================== *)
(** ** Exceptions and fallible computations *)
(* ===================================================================== *)

Inductive exn : Type :=
  | AssertionError
  | IndexError
  | KeyError
  | OSError
  | TypeError
  | ValueError
  | ZeroDivisionError
  | Exception (msg : string).

Inductive result (A : Type) : Type :=
  | Ok (a : A)
  | Raise (e : exn).
Arguments Ok {A} a.
Arguments Raise {A} e.

Global Instance result_ret : MRet result := λ A a, Ok a.
Global Instance result_bind : MBind result := λ A B f m,
  match m with
  | Ok a => f a
  | Raise e => Raise e
  end.

(** [for x in xs: s = body s x], stopping at the first exception. *)
Fixpoint for_ {A S : Type} (xs : list A) (body : S → A → result S) (s : S)
  : result S :=
  match xs with
  | [] => Ok s
  | x :: xs' => s' ← body s x; for_ xs' body s'
  end.

(** [assert c]. *)
Definition assert (c : bool) : result unit :=
  if c then Ok tt else Raise AssertionError.

(* ===================================================================== *)
(** ** NumPy arrays *)
(* ===================================================================== *)

(** A 2-D array: [a.shape == (shape0, shape1)], [a.tolist() == tolist]. *)
Record ndarray : Type := NDArray {
  shape0 : nat;
  shape1 : nat;
  tolist : list (list float)
}.

(** The arrays NumPy can build: the rows agree with the shape. *)
Definition well_formed (a : ndarray) : Prop :=
  length (tolist a) = shape0 a ∧ Forall (λ r, length r = shape1 a) (tolist a).

(** [np.zeros((r, c))]. *)
Definition np_zeros (r c : nat) : ndarray :=
  NDArray r c (replicate r (replicate c 0%float)).

(** [np.arange(n)]. *)
Definition np_arange (n : nat) : list nat := seq 0 n.

(** [xs[idx]] for an integer index array over a 1-D array: every index is
    checked against the length. *)
Definition take_idx {A : Type} (d : A) (xs : list A) (idx : list nat)
  : result (list A) :=
  if forallb (λ i, bool_decide (i < length xs)) idx
  then Ok ((λ i, nth i xs d) <$> idx)
  else Raise IndexError.

(** [a[idx]]: rows picked by an integer index array. *)
Definition take_rows (a : ndarray) (idx : list nat) : result ndarray :=
  if forallb (λ i, bool_decide (i < shape0 a)) idx
  then Ok (NDArray (length idx) (shape1 a) ((λ i, nth i (tolist a) []) <$> idx))
  else Raise IndexError.

(** [a[:, idx]]: columns picked by an integer index array. *)
Definition take_cols (a : ndarray) (idx : list nat) : result ndarray :=
  if forallb (λ j, bool_decide (j < shape1 a)) idx
  then Ok (NDArray (shape0 a) (length idx)
             ((λ r, (λ j, nth j r 0%float) <$> idx) <$> tolist a))
  else Raise IndexError.

(** The elements of [xs] at the positions where [mask] is [True]. *)
Fixpoint compress {A : Type} (mask : list bool) (xs : list A) : list A :=
  match mask, xs with
  | b :: mask', x :: xs' =>
      if b then x :: compress mask' xs' else compress mask' xs'
  | _, _ => []
  end.

(** [xs[mask]] for a boolean index array: the lengths must agree. *)
Definition bool_index {A : Type} (xs : list A) (mask : list bool)
  : result (list A) :=
  if bool_decide (length mask = length xs)
  then Ok (compress mask xs)
  else Raise IndexError.

(** [a[mask, :]]: rows picked by a boolean index array. *)
Definition mask_rows (a : ndarray) (mask : list bool) : result ndarray :=
  if bool_decide (length mask = shape0 a)
  then let rows := compress mask (tolist a) in
       Ok (NDArray (length rows) (shape1 a) rows)
  else Raise IndexError.

(** [mask[idx] = True] for an integer index array. *)
Definition set_true (mask : list bool) (idx : list nat) : result (list bool) :=
  if forallb (λ i, bool_decide (i < length mask)) idx
  then Ok (foldl (λ m i, <[i:=true]> m) mask idx)
  else Raise IndexError.

(** [np.concatenate([a, p], axis=1)]. *)
Definition np_concatenate_axis1 (a p : ndarray) : result ndarray :=
  if bool_decide (shape0 a = shape0 p)
  then Ok (NDArray (shape0 a) (shape1 a + shape1 p)
             (zip_with app (tolist a) (tolist p)))
  else Raise ValueError.

(** [float(n)] for a count [n]: the nearest double. *)
Definition float_of_nat (n : nat) : float :=
  SF2Prim (binary_normalize prec emax (Z.of_nat n) 0 false).

(** The eight running sums of NumPy's [pairwise_sum]. *)
Definition acc8 : Type :=
  float * float * float * float * float * float * float * float.

(** [pairwise_sum] on a block of at most 128 doubles, after the first
    eight: eight by eight the values go to the running sums, these are
    added up in pairs, and what is left over is added one by one. *)
Fixpoint pairwise_block (r : acc8) (a : list float) : float :=
  match a with
  | a0 :: a1 :: a2 :: a3 :: a4 :: a5 :: a6 :: a7 :: a' =>
      let '(r0, r1, r2, r3, r4, r5, r6, r7) := r in
      pairwise_block (r0 + a0, r1 + a1, r2 + a2, r3 + a3,
                      r4 + a4, r5 + a5, r6 + a6, r7 + a7)%float a'
  | rest =>
      let '(r0, r1, r2, r3, r4, r5, r6, r7) := r in
      foldl PrimFloat.add
        (((r0 + r1) + (r2 + r3)) + ((r4 + r5) + (r6 + r7)))%float rest
  end.

(** [pairwise_sum] to a depth of [depth] halvings: fewer than eight
    doubles are added one by one from [-0.0]; up to 128 go through the
    eight running sums; more are cut in two, the first part a multiple of
    eight long, and the two sums are added. *)
Fixpoint pairwise_sum_upto (depth : nat) (a : list float) : float :=
  let n := length a in
  match a with
  | a0 :: a1 :: a2 :: a3 :: a4 :: a5 :: a6 :: a7 :: a' =>
      if bool_decide (n ≤ 128)
      then pairwise_block (a0, a1, a2, a3, a4, a5, a6, a7) a'
      else
        match depth with
        | S depth' =>
            let n2 := n / 2 - (n / 2) mod 8 in
            (pairwise_sum_upto depth' (take n2 a)
             + pairwise_sum_upto depth' (drop n2 a))%float
        | 0 => foldl PrimFloat.add neg_zero a
        end
  | _ => foldl PrimFloat.add neg_zero a
  end.

(** NumPy's [pairwise_sum]: the depth [length a] is never used up. *)
Definition pairwise_sum (a : list float) : float :=
  pairwise_sum_upto (length a) a.

(** [np.add.reduce(a, axis=0)] for one column of an array of [w] columns.
    With several columns the rows are added to the result one after the
    other; a single column is one run of doubles, summed by
    [pairwise_sum].  The result starts from [-0.0]. *)
Definition add_reduce_column (w : nat) (column : list float) : float :=
  if bool_decide (w = 1)
  then (neg_zero + pairwise_sum column)%float
  else foldl PrimFloat.add neg_zero column.

(** [a.mean(axis=0)]: for every column its sum, divided by the number of
    rows.  Without rows the quotient by [0.0] is [nan]. *)
Definition mean_axis0 (a : ndarray) : list float :=
  (λ j, (add_reduce_column (shape1 a) ((λ r, nth j r 0%float) <$> tolist a)
         / float_of_nat (shape0 a))%float) <$> seq 0 (shape1 a).

(** [np.average(a, axis=0)] without weights: [avg = a.mean(axis=0)], after
    which NumPy takes the ratio [a.size / avg.size] of the two sizes in
    Python's integers.  For an array without columns [avg] is empty and
    the ratio is [0 / 0]: [ZeroDivisionError]. *)
Definition np_average_axis0 (a : ndarray) : result (list float) :=
  let avg := mean_axis0 a in
  if bool_decide (length avg = 0) then Raise ZeroDivisionError else Ok avg.

(** [np.any(m1 & m2)] for boolean arrays of one length. *)
Definition np_any_and (m1 m2 : list bool) : bool :=
  existsb id (zip_with andb m1 m2).

(** Insertion of a label into a strictly increasing list. *)
Fixpoint insert_sorted (x : Z) (l : list Z) : list Z :=
  match l with
  | [] => [x]
  | y :: l' =>
      if (x <? y)%Z then x :: l
      else if (x =? y)%Z then l
      else y :: insert_sorted x l'
  end.

(** [np.unique(labels)]: the distinct values, ascending. *)
Definition np_unique (labels : list Z) : list Z :=
  foldr insert_sorted [] labels.

(* ===================================================================== *)
(** ** Python dictionaries keyed by node id *)
(* ===================================================================== *)

Abbreviation dict V := (list (nat * V)).

(** [d[k]]. *)
Fixpoint dict_get {V : Type} (d : dict V) (k : nat) : result V :=
  match d with
  | [] => Raise KeyError
  | (k', v) :: d' => if bool_decide (k' = k) then Ok v else dict_get d' k
  end.

(** [d[k] = v]: an existing key keeps its place, a new one goes last. *)
Fixpoint dict_set {V : Type} (d : dict V) (k : nat) (v : V) : dict V :=
  match d with
  | [] => [(k, v)]
  | (k', v') :: d' =>
      if bool_decide (k' = k) then (k, v) :: d' else (k', v') :: dict_set d' k v
  end.

(** [d.keys()]. *)
Definition dict_keys {V : Type} (d : dict V) : list nat := fst <$> d.

(* ===================================================================== *)
(** ** The projection stage: [Mapper.filter] *)
(* ===================================================================== *)

(** Row labels of a [pandas] index. *)
Inductive label : Type :=
  | LInt (z : Z)
  | LStr (s : string).

(** The raw data handed to the mapper: its values, and its [index] when it
    has one (a [DataFrame]); [None] for a plain array. *)
Record PyData : Type := mkPyData {
  values : ndarray;
  index : option (list label)
}.

(** [np.array(data)]. *)
Definition np_array (data : PyData) : ndarray := values data.

(** Modelled from the spec: a lens ([tmap.tda.filter] is not among the
    sources) is anything that offers [fit_transform], which answers the
    projected points or raises.  Its [metric] is only printed. *)
Record Lens : Type := mkLens {
  fit_transform : ndarray → result ndarray
}.

(** The body of [for _filter in lens]; the state is [projected_data]. *)
Definition filter_step (data : ndarray) (projected_data : option ndarray)
    (_filter : Lens) : result (option ndarray) :=
  match projected_data with
  | None =>
      p ← fit_transform _filter data;
      Ok (Some p)
  | Some projected =>
      p ← fit_transform _filter data;
      c ← np_concatenate_axis1 projected p;
      Ok (Some c)
  end.

(** [Mapper.filter(data, lens=None)].  Python's [None] is [None] here, for
    [data], for [lens] and for the returned [projected_data]. *)
Definition filter (data : option PyData) (lens : option (list Lens))
  : result (option ndarray) :=
  match data with
  | None => Raise (Exception "Data must not be None."%string)
  | Some data =>
      let data := np_array data in
      match lens with
      | None => Raise TypeError (* len(None) *)
      | Some lens =>
          if bool_decide (0 < length lens)
          then for_ lens (filter_step data) None
          else Ok (Some data)
      end
  end.

(* ===================================================================== *)
(** ** The collaborators of the mapping stage *)
(* ===================================================================== *)

(** A clusterer in the style of scikit-learn: its [metric], its parameters
    and its [fit].  [fit] is [None] when the object has no [fit] attribute;
    [clusterer.fit(cube_data)] followed by reads of [clusterer.labels_] is
    the call of [fit], which answers the labels or raises. *)
Record Clusterer : Type := mkClusterer {
  metric : string;
  get_params : gmap string Q;
  fit : option (ndarray → result (list Z))
}.

Module Cover.
(** Modelled from the spec: the cover ([tmap.tda.cover.Cover] is not
    among the sources).  It exposes the projected point matrix [data],
    the total point count [n_points], the parameters [resolution] and
    [overlap], and [hypercubes], a sequence of sets of point indices. *)
Record t : Type := mk {
  n_points : nat;
  data : ndarray;
  hypercubes : list (list nat);
  resolution : Z;
  overlap : Q
}.

(** The hypercubes hold indices of points of the cover. *)
Definition in_range (cover : t) : Prop :=
  Forall (λ cube : list nat, Forall (λ i, i < n_points cover) cube)
         (hypercubes cover).
End Cover.

(* ===================================================================== *)
(** ** A [pandas] table over node ids *)
(* ===================================================================== *)

(** A [DataFrame] with float cells: a cell that is absent from [df_cells]
    holds [NaN]. *)
Record DataFrame : Type := mkDataFrame {
  df_index : list nat;
  df_columns : list nat;
  df_cells : gmap (nat * nat) Q
}.

(** [pd.DataFrame(data=np.nan, index=index, columns=columns)]. *)
Definition DataFrame_nan (index columns : list nat) : DataFrame :=
  mkDataFrame index columns ∅.

Definition add_label (k : nat) (labels : list nat) : list nat :=
  if bool_decide (k ∈ labels) then labels else labels ++ [k].

(** [df.loc[r, c] = v]; a label the table lacks enlarges it. *)
Definition loc_set (df : DataFrame) (r c : nat) (v : Q) : DataFrame :=
  mkDataFrame (add_label r (df_index df)) (add_label c (df_columns df))
              (<[(r, c) := v]> (df_cells df)).

(** [df.stack(dropna=True).index.tolist()]: the labels of the cells that
    are not [NaN], row by row. *)
Definition stack_index (df : DataFrame) : list (nat * nat) :=
  base.filter (λ rc, is_Some (df_cells df !! rc))
              (list_prod (df_index df) (df_columns df)).

(** [itertools.combinations(xs, 2)]. *)
Fixpoint combinations2 {A : Type} (xs : list A) : list (A * A) :=
  match xs with
  | [] => []
  | x :: xs' => ((λ y, (x, y)) <$> xs') ++ combinations2 xs'
  end.

(** [enumerate(xs)]. *)
Definition enumerate {A : Type} (xs : list A) : list (nat * A) :=
  zip (seq 0 (length xs)) xs.

(** [dict(pairs)]. *)
Definition dict_of_list {V : Type} (pairs : list (nat * V)) : dict V :=
  foldl (λ d kv, dict_set d kv.1 kv.2) [] pairs.

(** [a[i] += v] for a row vector [v] as long as the row. *)
Definition iadd_row (a : ndarray) (i : nat) (v : list float)
  : result ndarray :=
  if bool_decide (i < shape0 a) then
    if bool_decide (length v = shape1 a)
    then Ok (NDArray (shape0 a) (shape1 a)
               (alter (λ row, zip_with PrimFloat.add row v) i (tolist a)))
    else Raise ValueError
  else Raise IndexError.

(** [a[i] += x] for a scalar [x]. *)
Definition iadd_row_scalar (a : ndarray) (i : nat) (x : float)
  : result ndarray :=
  if bool_decide (i < shape0 a)
  then Ok (NDArray (shape0 a) (shape1 a)
             (alter (fmap (λ y, (y + x)%float)) i (tolist a)))
  else Raise IndexError.

(* ===================================================================== *)
(** ** The mapping stage: [Mapper.map] *)
(* ===================================================================== *)

(** The graph [map] returns when it has nodes. *)
Record Graph : Type := mkGraph {
  nodes : dict (list nat);
  edges : list (nat * nat);
  adj_matrix : DataFrame;
  sample_names : list label;
  node_keys : list nat;
  node_positions : ndarray;
  node_sizes : ndarray;
  params : gmap string Q * (Z * Q)
}.

(** The node registry under construction: [nodes] and [node_id]. *)
Definition registry : Type := dict (list bool) * nat.

(** Lines 121-124: the subset handed to the clusterer. *)
Definition cube_data_of (clusterer : Clusterer) (data_vals : ndarray)
    (cube : list nat) : result ndarray :=
  if bool_decide (metric clusterer ≠ "precomputed"%string)
  then take_rows data_vals cube
  else rows ← take_rows data_vals cube; take_cols rows cube.

(** Lines 133-136 and 139-142: a new node over the points [idx]. *)
Definition add_node (data_vals : ndarray) (idx : list nat) (reg : registry)
  : result registry :=
  point_mask ← set_true (replicate (shape0 data_vals) false) idx;
  Ok (dict_set reg.1 reg.2 point_mask, reg.2 + 1).

(** Lines 130-136: the body of [for label in np.unique(clusterer.labels_)]. *)
Definition label_step (data_vals : ndarray) (cube_data_idx : list nat)
    (labels_ : list Z) (reg : registry) (label : Z) : result registry :=
  if bool_decide (label ≠ (-1)%Z) then
    idx ← bool_index cube_data_idx ((λ l, bool_decide (l = label)) <$> labels_);
    add_node data_vals idx reg
  else Ok reg.

(** Lines 120-142: the body of [for cube in _iteration]. *)
Definition cube_step (clusterer : Clusterer) (data_vals : ndarray)
    (data_idx : list nat) (min_cluster_samples : Q)
    (reg : registry) (cube : list nat) : result registry :=
  cube_data ← cube_data_of clusterer data_vals cube;
  cube_data_idx ← take_idx 0 data_idx cube;
  if Qle_bool min_cluster_samples (inject_Z (Z.of_nat (shape0 cube_data))) then
    match fit clusterer with
    | Some fit_ =>
        labels_ ← fit_ cube_data;
        for_ (np_unique labels_) (label_step data_vals cube_data_idx labels_) reg
    | None => add_node data_vals cube_data_idx reg
    end
  else Ok reg.

(** [cluster_params.get("min_samples", 1)]. *)
Definition min_samples_of (clusterer : Clusterer) : Q :=
  default 1%Q (get_params clusterer !! "min_samples"%string).

(** Lines 97-142: the checks and the loop over the hypercubes. *)
Definition build_nodes (data : PyData) (cover : Cover.t) (clusterer : Clusterer)
  : result registry :=
  _ ← assert (bool_decide (shape0 (values data) = Cover.n_points cover));
  let min_cluster_samples := min_samples_of clusterer in
  let cubes := Cover.hypercubes cover in
  let data_idx := np_arange (shape0 (values data)) in
  let data_vals := np_array data in
  _ ← (if bool_decide (metric clusterer = "precomputed"%string)
       then assert (bool_decide (shape0 data_vals = shape1 data_vals))
       else Ok tt);
  for_ cubes (cube_step clusterer data_vals data_idx min_cluster_samples) ([], 0).

(** Lines 157-161: the body of [for i, node_id in enumerate(node_keys)]. *)
Definition node_step (cover : Cover.t) (nodes : dict (list bool))
    (acc : ndarray * ndarray) (item : nat * nat) : result (ndarray * ndarray) :=
  let '(i, node_id) := item in
  mask ← dict_get nodes node_id;
  data_in_node ← mask_rows (Cover.data cover) mask;
  node_coordinates ← np_average_axis0 data_in_node;
  node_positions ← iadd_row acc.1 i node_coordinates;
  node_sizes ← iadd_row_scalar acc.2 i (float_of_nat (shape0 data_in_node));
  Ok (node_positions, node_sizes).

(** Lines 171-173: the body of the loop over the pairs of node ids. *)
Definition edge_step (nodes : dict (list bool)) (adj_matrix : DataFrame)
    (pair : nat * nat) : result DataFrame :=
  let '(k1, k2) := pair in
  m1 ← dict_get nodes k1;
  m2 ← dict_get nodes k2;
  if np_any_and m1 m2 then Ok (loc_set adj_matrix k1 k2 1%Q) else Ok adj_matrix.

(** Line 182: one item of the comprehension over [nodes.keys()]. *)
Definition point_ids_step (nodes : dict (list bool)) (data_idx : list nat)
    (acc : list (nat * list nat)) (node_id : nat)
  : result (list (nat * list nat)) :=
  mask ← dict_get nodes node_id;
  ids ← bool_index data_idx mask;
  Ok (acc ++ [(node_id, ids)]).

(** Lines 186-189. *)
Definition sample_names_of (data : PyData) : list label :=
  match index data with
  | Some labels => labels
  | None => (λ i, LInt (Z.of_nat i)) <$> seq 0 (shape0 (values data))
  end.

(** Lines 154-195: the graph over a non-empty registry of nodes. *)
Definition assemble (data : PyData) (cover : Cover.t) (clusterer : Clusterer)
    (nodes : dict (list bool)) : result Graph :=
  let data_idx := np_arange (shape0 (values data)) in
  let node_keys := dict_keys nodes in
  acc ← for_ (enumerate node_keys) (node_step cover nodes)
           (np_zeros (length nodes) (shape1 (Cover.data cover)),
            np_zeros (length nodes) 1);
  let node_ids := dict_keys nodes in
  adj_matrix ← for_ (combinations2 node_ids) (edge_step nodes)
                  (DataFrame_nan node_ids node_ids);
  let edges := stack_index adj_matrix in
  pairs ← for_ (dict_keys nodes) (point_ids_step nodes data_idx) [];
  Ok (mkGraph (dict_of_list pairs) edges adj_matrix (sample_names_of data)
        node_keys acc.1 acc.2
        (get_params clusterer, (Cover.resolution cover, Cover.overlap cover))).

(** [Mapper.map(data, cover, clusterer)]; the empty dictionary [{}] that is
    returned when no node was created is [None]. *)
Definition map (data : PyData) (cover : Cover.t) (clusterer : Clusterer)
  : result (option Graph) :=
  reg ← build_nodes data cover clusterer;
  let nodes := reg.1 in
  if bool_decide (length nodes = 0) then Ok None
  else g ← assemble data cover clusterer nodes; Ok (Some g).

(* ===================================================================== *)
(** ** Notions the specification uses *)
(* ===================================================================== *)

(** [data[I][:, I]] in the specification's words: the entry at row [r] and
    column [c] is the entry of [a] at row [I[r]] and column [I[c]]. *)
Definition principal_submatrix (a : ndarray) (I : list nat) : ndarray :=
  NDArray (length I) (length I)
    ((λ i, (λ j, nth j (nth i (tolist a) []) 0%float) <$> I) <$> I).

(** Point [p] is a point of the subset that carries [label]: some position
    of the hypercube holds [p], and the clusterer gave that position the
    label [label]. *)
Definition carries (cube : list nat) (labels_ : list Z) (label : Z) (p : nat)
  : Prop :=
  ∃ j, cube !! j = Some p ∧ labels_ !! j = Some label.

(** [mask] is a membership mask over [n] points whose [True] entries are
    exactly the points satisfying [P]. *)
Definition marks_exactly (n : nat) (mask : list bool) (P : nat → Prop) : Prop :=
  length mask = n ∧ ∀ p, mask !! p = Some true ↔ P p.

(** The minimum-sample gate: the subset of the hypercube has at least
    [min_cluster_samples] members. *)
Definition passes_gate (min_cluster_samples : Q) (cube : list nat) : bool :=
  Qle_bool min_cluster_samples (inject_Z (Z.of_nat (length cube))).

(** The labels the clusterer returns for a hypercube. *)
Definition labels_of (clusterer : Clusterer) (fit_ : ndarray → result (list Z))
    (data_vals : ndarray) (cube : list nat) : list Z :=
  match cube_data_of clusterer data_vals cube ≫= fit_ with
  | Ok labels_ => labels_
  | Raise _ => []
  end.

(** What a node is created for: a hypercube, the labels the clusterer
    returned for it, and one of these labels. *)
Definition source : Type := list nat * list Z * Z.

(** The specification's step 2c for one hypercube: one node for every
    distinct label but [-1], in label order, when the gate is passed. *)
Definition cube_sources (clusterer : Clusterer)
    (fit_ : ndarray → result (list Z)) (data_vals : ndarray)
    (min_cluster_samples : Q) (cube : list nat) : list source :=
  if passes_gate min_cluster_samples cube then
    let labels_ := labels_of clusterer fit_ data_vals cube in
    (λ label, (cube, labels_, label))
      <$> base.filter (λ label, label ≠ (-1)%Z) (np_unique labels_)
  else [].

(** ... and for all hypercubes, in the cover's order. *)
Definition node_sources (clusterer : Clusterer)
    (fit_ : ndarray → result (list Z)) (data_vals : ndarray)
    (min_cluster_samples : Q) (cubes : list (list nat)) : list source :=
  cubes ≫= cube_sources clusterer fit_ data_vals min_cluster_samples.

(** The node [node] is the one created for [src]: its mask marks exactly
    the subset points carrying the label. *)
Definition created_for (n : nat) (node : nat * list bool) (src : source)
  : Prop :=
  marks_exactly n node.2 (carries src.1.1 src.1.2 src.2).

(** What a stretch of the loop adds to the registry [(nodes, id)]: the
    nodes [new], under the ids from [id] on. *)
Definition extends (nodes : dict (list bool)) (id : nat) (reg' : registry)
    (new : dict (list bool)) : Prop :=
  reg' = (nodes ++ new, id + length new)
  ∧ dict_keys new = seq id (length new).

(** The point ids of a mask over [n] points: [data_idx[mask]]. *)
Definition point_ids (n : nat) (node : nat * list bool) : nat * list nat :=
  (node.1, compress node.2 (np_arange n)).

(** The data frame of row labels is as long as the data. *)
Definition index_matches (data : PyData) : Prop :=
  ∀ labels, index data = Some labels → length labels = shape0 (values data).



(** The entry of the table at row [a] and column [b] is present. *)
Definition entry_present (df : DataFrame) (a b : nat) : Prop :=
  is_Some (df_cells df !! (a, b)).

(** The two masks share a [True] position. *)
Definition masks_share (ma mb : list bool) : Prop :=
  ∃ p, ma !! p = Some true ∧ mb !! p = Some true.

(** The clusterer's contract: [fit] answers one label per row of the
    subset it is given. *)
Definition labels_per_point (clusterer : Clusterer) : Prop :=
  ∀ fit_ a, fit clusterer = Some fit_ →
    ∃ labels_, fit_ a = Ok labels_ ∧ length labels_ = shape0 a.

(** The inputs [map] is meant for: the raw data, the cover and the
    projected points agree on the number of points, the hypercubes hold
    point indices, and a precomputed metric comes with a square matrix. *)
Definition map_inputs_ok (data : PyData) (cover : Cover.t)
    (clusterer : Clusterer) : Prop :=
  shape0 (values data) = Cover.n_points cover
  ∧ shape0 (Cover.data cover) = Cover.n_points cover
  ∧ (metric clusterer = "precomputed"%string →
     shape0 (values data) = shape1 (values data))
  ∧ Cover.in_range cover
  ∧ labels_per_point clusterer.

(* ===================================================================== *)
(** ** Worked inputs *)
(* ===================================================================== *)

Module Examples.
(** Six points in the plane. *)
Definition points : ndarray :=
  NDArray 6 2 [[0; 0]; [0; 1]; [1; 0]; [1; 1]; [5; 5]; [5; 6]]%float.

Definition raw : PyData := mkPyData points None.

(** The identity lens, and a lens that keeps the second coordinate. *)
Definition identity_lens : Lens := mkLens (λ a, Ok a).
Definition second_lens : Lens := mkLens (λ a, take_cols a [1]).

(** A symmetric table of pairwise distances between three points. *)
Definition distances : ndarray :=
  NDArray 3 3 [[0; 1; 4]; [1; 0; 2]; [4; 2; 0]]%float.

(** A clusterer that puts every point of a subset into cluster [0]. *)
Definition one_cluster (metric : string) : Clusterer :=
  mkClusterer metric ∅ (Some (λ a, Ok (replicate (shape0 a) 0%Z))).

(** A clusterer that labels the rows of a subset [0], [1], [-1], [0], ...
    in turn. *)
Definition cycling_fit (a : ndarray) : result (list Z) :=
  Ok ((λ i : nat, match i mod 3 with
                  | 0 => 0%Z
                  | 1 => 1%Z
                  | _ => (-1)%Z
                  end) <$> seq 0 (shape0 a)).
Definition cycling : Clusterer :=
  mkClusterer "euclidean" ∅ (Some cycling_fit).

(** A clusterer that asks for at least three samples. *)
Definition demanding : Clusterer :=
  mkClusterer "euclidean" {[ "min_samples"%string := 3%Q ]}
    (Some (λ a, Ok (replicate (shape0 a) 0%Z))).

(** Two disjoint hypercubes, and three overlapping ones. *)
Definition two_cubes : Cover.t :=
  Cover.mk 6 points [[0; 1; 2; 3]; [4; 5]] 2 0%Q.
Definition overlapping : Cover.t :=
  Cover.mk 6 points [[0; 1; 2; 3]; [3; 4; 5]; [0; 5]] 2 (1 # 2)%Q.

(** Something without [fit] that accepts any hypercube, and a cover with
    an empty hypercube. *)
Definition fitless : Clusterer :=
  mkClusterer "euclidean" {[ "min_samples"%string := 0%Q ]} None.
Definition with_empty_cube : Cover.t :=
  Cover.mk 6 points [[]; [4; 5]] 2 0%Q.
End Examples.


(* ===================================================================== *)
(** ** Further notions about the projection and the mapping stage *)
(* ===================================================================== *)

(** The arrays [outputs], each of [n] rows, side by side: row [i] is row
    [i] of the first array, followed by row [i] of the second, and so on. *)
Definition hstack (n : nat) (outputs : list ndarray) : ndarray :=
  NDArray n (sum_list_with shape1 outputs)
    ((λ i, concat ((λ m, nth i (tolist m) []) <$> outputs)) <$> seq 0 n).

(** No two nodes of the registry share a point. *)
Definition masks_disjoint (nodes_ : dict (list bool)) : Prop :=
  ∀ i j node_i node_j,
    i ≠ j → nodes_ !! i = Some node_i → nodes_ !! j = Some node_j →
    ¬ masks_share node_i.2 node_j.2.

(** No two hypercubes of the list share a point. *)
Definition cubes_disjoint (cubes : list (list nat)) : Prop :=
  ∀ i j cube_i cube_j,
    i ≠ j → cubes !! i = Some cube_i → cubes !! j = Some cube_j →
    ∀ p, ¬ (p ∈ cube_i ∧ p ∈ cube_j).

(** The lexicographic order on pairs of node ids. *)
Definition pair_lt (x y : nat * nat) : Prop :=
  x.1 < y.1 ∨ (x.1 = y.1 ∧ x.2 < y.2).

(** The hypercubes that pass the gate, in the cover's order. *)
Definition gated_cubes (min_cluster_samples : Q) (cubes : list (list nat))
  : list (list nat) :=
  base.filter (λ cube, passes_gate min_cluster_samples cube = true) cubes.

(** The clusterer's answer on the subset of [cube] is usable: [fit] did
    not raise, and it gave one label per point unless every label is the
    noise label. *)
Definition fitted (clusterer : Clusterer) (fit_ : ndarray → result (list Z))
    (data_vals : ndarray) (cube : list nat) : Prop :=
  ∃ cube_data labels_,
    cube_data_of clusterer data_vals cube = Ok cube_data
    ∧ fit_ cube_data = Ok labels_
    ∧ (Forall (λ label, label = (-1)%Z) labels_
       ∨ length labels_ = length cube).

(* ===================================================================== *)
(** ** Helpers of [tmap/api/general.py] *)
(* ===================================================================== *)

Module General.

(** [string.ascii_letters] and [string.digits]. *)
Definition ascii_letters : string :=
  "abcdefghijklmnopqrstuvwxyzABCDEFGHIJKLMNOPQRSTUVWXYZ".
Definition digits : string := "0123456789".

Section Random.
(** The state of the random generator, and a draw below a bound. *)
Context {G : Type}.
Variable randbelow : nat → G → nat * G.

(** [random.choice(seq)]: [seq[randbelow(len(seq))]], and [IndexError] for
    an empty sequence. *)
Definition choice (seq : list Ascii.ascii) (g : G) : result Ascii.ascii * G :=
  match seq with
  | [] => (Raise IndexError, g)
  | _ =>
      let '(i, g') := randbelow (length seq) g in
      (match seq !! i with
       | Some c => Ok c
       | None => Raise IndexError
       end, g')
  end.

(** [random.choice(letters) for i in range(k)], drawn one after the other. *)
Fixpoint choices (letters : list Ascii.ascii) (k : nat) (g : G)
  : result (list Ascii.ascii) * G :=
  match k with
  | 0 => (Ok [], g)
  | S k' =>
      match choice letters g with
      | (Ok c, g1) =>
          match choices letters k' g1 with
          | (Ok cs, g2) => (Ok (c :: cs), g2)
          | (Raise e, g2) => (Raise e, g2)
          end
      | (Raise e, g1) => (Raise e, g1)
      end
  end.

(** [randomString(stringLength=10)]; [range] of a negative number is
    empty. *)
Definition randomString (stringLength : Z) (g : G) : result string * G :=
  let letters := (ascii_letters +:+ digits)%string in
  match choices (String.list_ascii_of_string letters) (Z.to_nat stringLength) g with
  | (Ok cs, g') => (Ok (String.string_of_list_ascii cs), g')
  | (Raise e, g') => (Raise e, g')
  end.
End Random.

Section WriteData.
(** A data frame, a selection of columns, and [data.loc[:, col]], which
    raises when a column is missing. *)
Context {Frame Cols : Type}.
Variable loc_cols : Frame → Cols → result Frame.
(** The paths that the file system lets one open for writing. *)
Variable writable : string → bool.

(** [frame.to_csv(path, sep=',', index=1)]: the file at [path] now holds
    the frame.  When [path] cannot be opened for writing (its directory
    does not exist, a permission is missing) the call raises [OSError] and
    no file changes.  The files are a map from paths to what was
    written. *)
Definition to_csv (files : gmap string Frame) (path : string) (frame : Frame)
  : result unit * gmap string Frame :=
  if writable path
  then (Ok tt, <[path := frame]> files)
  else (Raise OSError, files).

(** [prefix + '_%s.csv' % '_'.join([name, suffix])]. *)
Definition multidf_path (prefix suffix name : string) : string :=
  (prefix +:+ "_" +:+ (name +:+ "_" +:+ suffix) +:+ ".csv")%string.

(** The loop of the mode ['multidf'] over [cols.items()]; the files written
    before an exception stay written. *)
Fixpoint write_cols (data : Frame) (prefix suffix : string)
    (cols : list (string * Cols)) (files : gmap string Frame)
  : result unit * gmap string Frame :=
  match cols with
  | [] => (Ok tt, files)
  | (name, col) :: cols' =>
      match loc_cols data col with
      | Ok subdata =>
          match to_csv files (multidf_path prefix suffix name) subdata with
          | (Ok _, files') => write_cols data prefix suffix cols' files'
          | (Raise e, files') => (Raise e, files')
          end
      | Raise e => (Raise e, files)
      end
  end.

(** [write_data(data, prefix, suffix='', mode='df', verbose=1, **kwargs)]:
    the outcome and the files afterwards.  The only keyword argument read
    is ['df2cols'], a dictionary from names to selections of columns; the
    calls of [logger] only print. *)
Definition write_data (data : Frame) (prefix suffix mode : string)
    (kwargs : gmap string (list (string * Cols)))
    (files : gmap string Frame) : result unit * gmap string Frame :=
  if bool_decide (mode = "df"%string) then
    if bool_decide (suffix ≠ ""%string)
    then to_csv files (prefix +:+ "_" +:+ suffix +:+ ".csv")%string data
    else to_csv files (prefix +:+ ".csv")%string data
  else if bool_decide (mode = "multidf"%string) then
    match kwargs !! "df2cols"%string with
    | None => (Raise KeyError, files)
    | Some cols => write_cols data prefix suffix cols files
    end
  else if bool_decide (mode = "html"%string) then (Ok tt, files)
  else (Ok tt, files).
End WriteData.
End General.

(* ===================================================================== *)
(** ** Further worked inputs *)
(* ===================================================================== *)

Module Cases.
(** A lens that fails, and a lens that keeps the first two rows only. *)
Definition failing_lens : Lens :=
  mkLens (λ _, Raise (Exception "singular matrix"%string)).
Definition truncating_lens : Lens := mkLens (λ a, take_rows a [0; 1]).

(** The second coordinates of the six points, as a column. *)
Definition second_column : ndarray :=
  NDArray 6 1 [[0]; [1]; [0]; [1]; [5]; [6]]%float.

(** Something without [fit], with the default threshold. *)
Definition whole_cubes : Clusterer := mkClusterer "euclidean" ∅ None.

(** A cover with a hypercube of one point and an empty one. *)
Definition sparse_cover : Cover.t :=
  Cover.mk 6 Examples.points [[0; 1; 2; 3]; []; [4; 5]] 2 0%Q.

(** A generator of draws: a counter, stepped by seven. *)
Definition counter_randbelow (bound : nat) (g : nat) : nat * nat :=
  (g mod bound, g + 7).

(** Frames as lists of named columns, selected by name. *)
Definition select (frame : list (string * list Z)) (cols : list string)
  : result (list (string * list Z)) :=
  if forallb (λ c, bool_decide (c ∈ frame.*1)) cols
  then Ok (base.filter (λ col : string * list Z, col.1 ∈ cols) frame)
  else Raise KeyError.
Definition table : list (string * list Z) :=
  [("a"%string, [1; 2]%Z); ("b"%string, [3; 4]%Z); ("c"%string, [5; 6]%Z)].

(** A cover whose projected points have no coordinate. *)
Definition flat_cover : Cover.t :=
  Cover.mk 6 (NDArray 6 0 [[]; []; []; []; []; []]) [[0; 1; 2]] 1 0%Q.

(** A file system that refuses the paths below [/no/such/dir/]. *)
Definition no_such_dir (path : string) : bool :=
  negb (String.prefix "/no/such/dir/" path).

(** Six other points, of the same shape as [Examples.points]. *)
Definition other_points : ndarray :=
  NDArray 6 2 [[9; 9]; [8; 8]; [7; 7]; [6; 6]; [5; 5]; [4; 4]]%float.
End Cases.


(* ===================================================================== *)
(** ** Reasoning about fallible computations *)
(* ===================================================================== *)

Lemma bind_Ok {A B : Type} (m : result A) (f : A → result B) (b : B) :
  m ≫= f = Ok b → ∃ a, m = Ok a ∧ f a = Ok b.
Proof. destruct m as [a|e]; simpl; [eauto | discriminate]. Qed.

Lemma assert_Ok (c : bool) (u : unit) : assert c = Ok u → c = true.
Proof. by destruct c. Qed.

(** [unbind H as a Ha] splits the successful bind in [H] into its first
    computation, [Ha], with value [a], and the rest, which stays in [H]. *)
Tactic Notation "unbind" hyp(H) "as" ident(a) ident(Ha) :=
  apply bind_Ok in H as (a & Ha & H).

(** A loop invariant that every successful iteration preserves holds of
    the final state. *)
Lemma for_invariant {A S : Type} (P : S → Prop) (xs : list A)
    (body : S → A → result S) (s s' : S) :
  (∀ s x s', x ∈ xs → P s → body s x = Ok s' → P s') →
  P s → for_ xs body s = Ok s' → P s'.
Proof.
  revert s. induction xs as [|x xs IH]; intros s Hbody Hs Hfor; simpl in Hfor.
  - by injection Hfor as <-.
  - unbind Hfor as s1 Hstep.
    apply (IH s1); [|by eapply Hbody; [left| |]|done].
    intros s2 y s3 Hy. apply Hbody. by right.
Qed.

(* ===================================================================== *)
(** ** The projection stage *)
(* ===================================================================== *)

Section Concatenation.
Context {A : Type}.
Implicit Types a b : list (list A).

Lemma take_zip_with_app a b w :
  length a = length b → Forall (λ r, length r = w) a →
  take w <$> zip_with app a b = a.
Proof.
  revert b. induction a as [|r a IH]; intros [|r' b] Hlen Hw; try done.
  inversion_clear Hw as [|? ? Hr Ha]. simpl in *. f_equal.
  - by rewrite take_app_length'.
  - apply IH; [lia | done].
Qed.

Lemma drop_zip_with_app a b w :
  length a = length b → Forall (λ r, length r = w) a →
  drop w <$> zip_with app a b = b.
Proof.
  revert b. induction a as [|r a IH]; intros [|r' b] Hlen Hw; try done.
  inversion_clear Hw as [|? ? Hr Ha]. simpl in *. f_equal.
  - by rewrite drop_app_length'.
  - apply IH; [lia | done].
Qed.

Lemma Forall_zip_with_app a b w1 w2 :
  Forall (λ r, length r = w1) a → Forall (λ r, length r = w2) b →
  Forall (λ r, length r = w1 + w2) (zip_with app a b).
Proof.
  intros Ha. revert b. induction Ha as [|r a Hr Ha IH]; intros b Hb.
  - constructor.
  - destruct Hb as [|r' b Hr' Hb]; simpl; constructor.
    + rewrite length_app. lia.
    + by apply IH.
Qed.
End Concatenation.

Lemma np_concatenate_axis1_well_formed (a p out : ndarray) :
  well_formed a → well_formed p → np_concatenate_axis1 a p = Ok out →
  well_formed out.
Proof.
  intros [Ha0 Ha1] [Hp0 Hp1]. unfold np_concatenate_axis1.
  case_bool_decide as Hrows; [|done]. intros [= <-]. split; simpl.
  - rewrite length_zip_with. lia.
  - by apply Forall_zip_with_app.
Qed.

(** C9.  With an empty lens list the projection stage returns the points it
    was given; with the lens list absent (the default [lens=None]) it raises
    [TypeError] at [len(lens)] instead of returning the points. *)
Theorem filter_no_lens (data : PyData) :
  filter (Some data) (Some []) = Ok (Some (values data))
  ∧ filter (Some data) None = Raise TypeError.
Proof. split; reflexivity. Qed.

(** C6.  Two lenses whose outputs on the same input have [n] rows and
    widths [w1] and [w2]: the projection has shape [(n, w1 + w2)], its first
    [w1] columns are the first lens's own output and the remaining ones the
    second lens's output on the original points. *)
Theorem filter_two_lenses (data : PyData) (l1 l2 : Lens) (m1 m2 : ndarray)
    (n w1 w2 : nat) :
  fit_transform l1 (values data) = Ok m1 →
  fit_transform l2 (values data) = Ok m2 →
  well_formed m1 → well_formed m2 →
  shape0 m1 = n → shape1 m1 = w1 → shape0 m2 = n → shape1 m2 = w2 →
  ∃ out, filter (Some data) (Some [l1; l2]) = Ok (Some out)
    ∧ shape0 out = n ∧ shape1 out = w1 + w2 ∧ well_formed out
    ∧ take w1 <$> tolist out = tolist m1
    ∧ drop w1 <$> tolist out = tolist m2
    ∧ filter (Some data) (Some [l1]) = Ok (Some m1).
Proof.
  intros H1 H2 Hwf1 Hwf2 Hn1 Hw1 Hn2 Hw2.
  assert (Hcat : np_concatenate_axis1 m1 m2
                 = Ok (NDArray n (w1 + w2) (zip_with app (tolist m1) (tolist m2)))).
  { unfold np_concatenate_axis1. rewrite bool_decide_true by congruence.
    by rewrite Hn1, Hw1, Hw2. }
  eexists. split.
  { unfold filter, np_array. simpl. rewrite H1. simpl. rewrite H2. simpl.
    rewrite Hcat. reflexivity. }
  destruct Hwf1 as [Hlen1 Hrows1], Hwf2 as [Hlen2 Hrows2]. simpl.
  split_and!; try done.
  - eapply np_concatenate_axis1_well_formed; [| |exact Hcat]; by split.
  - apply take_zip_with_app; [congruence | by rewrite <- Hw1].
  - apply drop_zip_with_app; [congruence | by rewrite <- Hw1].
  - unfold filter, np_array. simpl. by rewrite H1.
Qed.

Lemma filter_two_lenses_witness :
  ∃ out, filter (Some Examples.raw)
           (Some [Examples.identity_lens; Examples.second_lens]) = Ok (Some out)
    ∧ shape0 out = 6 ∧ shape1 out = 2 + 1 ∧ well_formed out
    ∧ take 2 <$> tolist out = tolist Examples.points
    ∧ drop 2 <$> tolist out = tolist (NDArray 6 1 [[0]; [1]; [0]; [1]; [5]; [6]]%float)
    ∧ filter (Some Examples.raw) (Some [Examples.identity_lens])
      = Ok (Some Examples.points).
Proof.
  apply (filter_two_lenses Examples.raw Examples.identity_lens
           Examples.second_lens Examples.points
           (NDArray 6 1 [[0]; [1]; [0]; [1]; [5]; [6]]%float) 6 2 1);
    try reflexivity.
  - split; [reflexivity | simpl; repeat constructor].
  - split; [reflexivity | simpl; repeat constructor].
Defined.

(* ===================================================================== *)
(** ** Index arrays *)
(* ===================================================================== *)

Lemma forallb_lt (idx : list nat) (n : nat) :
  forallb (λ i, bool_decide (i < n)) idx = true ↔ Forall (λ i, i < n) idx.
Proof.
  induction idx as [|i idx IH]; simpl.
  - split; [constructor | done].
  - rewrite andb_true_iff, bool_decide_eq_true, IH, Forall_cons. done.
Qed.

Lemma take_rows_Ok (a rows : ndarray) (idx : list nat) :
  take_rows a idx = Ok rows →
  Forall (λ i, i < shape0 a) idx
  ∧ rows = NDArray (length idx) (shape1 a) ((λ i, nth i (tolist a) []) <$> idx).
Proof.
  unfold take_rows. destruct (forallb _ idx) eqn:Hidx; [|done].
  intros [= <-]. by apply forallb_lt in Hidx.
Qed.

Lemma take_rows_in_range (a : ndarray) (idx : list nat) :
  Forall (λ i, i < shape0 a) idx →
  take_rows a idx
  = Ok (NDArray (length idx) (shape1 a) ((λ i, nth i (tolist a) []) <$> idx)).
Proof. intros H. unfold take_rows. apply forallb_lt in H. by rewrite H. Qed.

Lemma take_idx_arange (n : nat) (idx : list nat) :
  Forall (λ i, i < n) idx → take_idx 0 (np_arange n) idx = Ok idx.
Proof.
  intros H. unfold take_idx, np_arange. rewrite length_seq.
  pose proof H as Hb. apply forallb_lt in Hb. rewrite Hb. f_equal.
  induction H as [|i idx Hi H IH]; [done|]. simpl.
  rewrite seq_nth by done. f_equal. apply IH. by apply forallb_lt.
Qed.

Lemma take_idx_arange_Ok (n : nat) (idx out : list nat) :
  take_idx 0 (np_arange n) idx = Ok out → Forall (λ i, i < n) idx ∧ out = idx.
Proof.
  intros H. assert (Hidx : Forall (λ i, i < n) idx).
  { unfold take_idx, np_arange in H. rewrite length_seq in H.
    destruct (forallb _ idx) eqn:Hb; [|done]. by apply forallb_lt. }
  split; [done|]. rewrite take_idx_arange in H by done. congruence.
Qed.

(** The subset handed to the clusterer has one row per index of the
    hypercube, whatever the metric. *)
Lemma cube_data_of_Ok (clusterer : Clusterer) (data_vals cube_data : ndarray)
    (cube : list nat) :
  cube_data_of clusterer data_vals cube = Ok cube_data →
  Forall (λ i, i < shape0 data_vals) cube ∧ shape0 cube_data = length cube.
Proof.
  unfold cube_data_of. case_bool_decide.
  - intros [? ->]%take_rows_Ok. done.
  - intros Hcd. unbind Hcd as rows Hrows.
    apply take_rows_Ok in Hrows as [? ->].
    unfold take_cols in Hcd. simpl in Hcd. destruct (forallb _ cube); [|done].
    by injection Hcd as <-.
Qed.

(* ===================================================================== *)
(** ** Preconditions of the mapping stage *)
(* ===================================================================== *)

(** C8.  When the row count of the raw data differs from the point count
    the cover declares, [map] raises at its first statement: whatever the
    hypercubes and the clusterer are, the outcome is the failed assertion
    and no graph. *)
Theorem map_row_count_mismatch (data : PyData) (cover : Cover.t)
    (clusterer : Clusterer) :
  shape0 (values data) ≠ Cover.n_points cover →
  map data cover clusterer = Raise AssertionError.
Proof.
  intros Hrows. unfold map, build_nodes.
  rewrite (bool_decide_false (shape0 (values data) = Cover.n_points cover))
    by done.
  reflexivity.
Qed.

Lemma map_row_count_mismatch_witness :
  map Examples.raw (Cover.mk 5 Examples.points [[0; 1]; [7]] 2 0%Q)
      (Examples.one_cluster "euclidean")
  = Raise AssertionError.
Proof. apply map_row_count_mismatch. simpl. lia. Defined.

(** C3.  With the metric "precomputed" and an [n] x [n] matrix, the subset
    computed for a hypercube with indices [I] is the principal submatrix,
    of shape [(|I|, |I|)], and it is the argument of the clusterer's [fit];
    a matrix that is not square fails the assertion before any hypercube
    is looked at. *)
Theorem precomputed_submatrix (data : PyData) (clusterer : Clusterer)
    (I : list nat) (n : nat) :
  metric clusterer = "precomputed"%string →
  (shape0 (values data) = n → shape1 (values data) = n →
   Forall (λ i, i < n) I →
   cube_data_of clusterer (np_array data) I
     = Ok (principal_submatrix (values data) I)
   ∧ ∀ data_idx min_cluster_samples reg,
       cube_step clusterer (np_array data) data_idx min_cluster_samples reg I
       = (cube_data_idx ← take_idx 0 data_idx I;
          if Qle_bool min_cluster_samples (inject_Z (Z.of_nat (length I)))
          then match fit clusterer with
               | Some fit_ =>
                   labels_ ← fit_ (principal_submatrix (values data) I);
                   for_ (np_unique labels_)
                     (label_step (np_array data) cube_data_idx labels_) reg
               | None => add_node (np_array data) cube_data_idx reg
               end
          else Ok reg))
  ∧ (shape0 (values data) ≠ shape1 (values data) →
     ∀ cover, map data cover clusterer = Raise AssertionError).
Proof.
  intros Hmetric. split.
  - intros Hrows Hcols HI.
    assert (Hcube : cube_data_of clusterer (np_array data) I
                    = Ok (principal_submatrix (values data) I)).
    { unfold cube_data_of, np_array.
      rewrite (bool_decide_false (metric clusterer ≠ "precomputed"%string))
        by (intros Hne; by apply Hne).
      rewrite take_rows_in_range by (by rewrite Hrows). simpl.
      unfold take_cols. simpl. rewrite Hcols.
      apply forallb_lt in HI. rewrite HI.
      unfold principal_submatrix. by rewrite <- list_fmap_compose. }
    split; [done|]. intros data_idx min_cluster_samples reg.
    unfold cube_step. by rewrite Hcube.
  - intros Hsquare cover. unfold map, build_nodes.
    destruct (assert (bool_decide (shape0 (values data) = Cover.n_points cover)))
      as [[]|e] eqn:Hassert; simpl.
    + rewrite (bool_decide_true (metric clusterer = "precomputed"%string))
        by done.
      unfold np_array.
      rewrite (bool_decide_false (shape0 (values data) = shape1 (values data)))
        by done.
      reflexivity.
    + unfold assert in Hassert.
      destruct (bool_decide _); [done | by injection Hassert as <-].
Qed.

Lemma precomputed_submatrix_witness :
  (cube_data_of (Examples.one_cluster "precomputed")
     (np_array (mkPyData Examples.distances None)) [0; 2]
   = Ok (NDArray 2 2 [[0; 4]; [4; 0]]%float))
  ∧ map Examples.raw (Cover.mk 6 Examples.points [[0; 1]] 2 0%Q)
        (Examples.one_cluster "precomputed")
    = Raise AssertionError.
Proof.
  split.
  - refine (proj1 (proj1 (precomputed_submatrix
              (mkPyData Examples.distances None)
              (Examples.one_cluster "precomputed") [0; 2] 3 eq_refl)
              eq_refl eq_refl _)).
    repeat constructor.
  - refine (proj2 (precomputed_submatrix Examples.raw
              (Examples.one_cluster "precomputed") [] 6 eq_refl) _ _).
    simpl. lia.
Defined.

(* ===================================================================== *)
(** ** Boolean masks *)
(* ===================================================================== *)

Lemma elem_of_compress {A : Type} (mask : list bool) (xs : list A) (x : A) :
  x ∈ compress mask xs ↔ ∃ j, mask !! j = Some true ∧ xs !! j = Some x.
Proof.
  revert xs. induction mask as [|b mask IH]; intros [|y xs]; simpl.
  - rewrite elem_of_nil. split; [done | by intros (j & ? & ?)].
  - rewrite elem_of_nil. split; [done | by intros (j & ? & ?)].
  - rewrite elem_of_nil. split; [done | by intros ([|j] & ? & ?)].
  - destruct b.
    + rewrite elem_of_cons, IH. split.
      * intros [->|(j & ? & ?)]; [by exists 0 | by exists (S j)].
      * intros ([|j] & Hm & Hx); simpl in *; [left; congruence | right; eauto].
    + rewrite IH. split.
      * intros (j & ? & ?). by exists (S j).
      * intros ([|j] & Hm & Hx); simpl in *; [done | eauto].
Qed.

Lemma compress_seq_lt (mask : list bool) (start len p : nat) :
  p ∈ compress mask (seq start len) → start ≤ p < start + len.
Proof.
  intros (j & _ & Hj)%elem_of_compress.
  apply lookup_seq in Hj. lia.
Qed.

Lemma length_set_true_fold (idx : list nat) (mask : list bool) :
  length (foldl (λ m i, <[i:=true]> m) mask idx) = length mask.
Proof.
  revert mask. induction idx as [|i idx IH]; intros mask; simpl; [done|].
  by rewrite IH, length_insert.
Qed.

Lemma lookup_set_true_fold (idx : list nat) (mask : list bool) (p : nat) :
  foldl (λ m i, <[i:=true]> m) mask idx !! p = Some true
  ↔ (p ∈ idx ∧ p < length mask) ∨ mask !! p = Some true.
Proof.
  revert mask. induction idx as [|i idx IH]; intros mask; simpl.
  - rewrite elem_of_nil. tauto.
  - rewrite IH, length_insert, elem_of_cons. split.
    + intros [[Hp Hlt]|Hp]; [tauto|].
      destruct (decide (i = p)) as [->|Hne].
      * left. split; [by left|].
        apply lookup_lt_Some in Hp. by rewrite length_insert in Hp.
      * rewrite list_lookup_insert_ne in Hp by done. tauto.
    + intros [[[->|Hp] Hlt]|Hp]; [|tauto|].
      * right. by apply list_lookup_insert_eq.
      * destruct (decide (i = p)) as [->|Hne].
        -- right. apply list_lookup_insert_eq. by eapply lookup_lt_Some.
        -- right. by rewrite list_lookup_insert_ne.
Qed.

Lemma set_true_Ok (n : nat) (idx : list nat) (mask : list bool) :
  set_true (replicate n false) idx = Ok mask →
  Forall (λ i, i < n) idx ∧ length mask = n
  ∧ ∀ p, mask !! p = Some true ↔ p ∈ idx.
Proof.
  unfold set_true. rewrite length_replicate.
  destruct (forallb _ idx) eqn:Hidx; [|done]. intros [= <-].
  apply forallb_lt in Hidx. split_and!; [done| |].
  - by rewrite length_set_true_fold, length_replicate.
  - intros p. rewrite lookup_set_true_fold, length_replicate. split.
    + intros [[? _]|Hp]; [done|]. by apply lookup_replicate in Hp as [? _].
    + intros Hp. left. split; [done|].
      by eapply (proj1 (Forall_forall _ _) Hidx).
Qed.

Lemma set_true_in_range (n : nat) (idx : list nat) :
  Forall (λ i, i < n) idx → ∃ mask, set_true (replicate n false) idx = Ok mask.
Proof.
  intros Hidx. unfold set_true. rewrite length_replicate.
  apply forallb_lt in Hidx. rewrite Hidx. eauto.
Qed.

(** "The masks share a [True] position." *)
Lemma np_any_and_true (m1 m2 : list bool) :
  np_any_and m1 m2 = true ↔ ∃ p, m1 !! p = Some true ∧ m2 !! p = Some true.
Proof.
  unfold np_any_and. rewrite existsb_exists. split.
  - intros (b & Hin & Hb). unfold id in Hb. subst b.
    apply list_elem_of_In, list_elem_of_lookup in Hin as [p Hp].
    apply lookup_zip_with_Some in Hp as (b1 & b2 & Hand & H1 & H2).
    symmetry in Hand. apply andb_true_iff in Hand as [-> ->]. eauto.
  - intros (p & H1 & H2). exists true. split; [|done].
    apply list_elem_of_In, list_elem_of_lookup. exists p.
    apply lookup_zip_with_Some. by exists true, true.
Qed.

(* ===================================================================== *)
(** ** Dictionaries *)
(* ===================================================================== *)

Lemma dict_set_fresh {V : Type} (d : dict V) (k : nat) (v : V) :
  k ∉ dict_keys d → dict_set d k v = d ++ [(k, v)].
Proof.
  unfold dict_keys. induction d as [|[k' v'] d IH]; simpl; [done|].
  rewrite not_elem_of_cons. intros [Hne Hd].
  rewrite bool_decide_false by done. by rewrite IH.
Qed.

Lemma dict_get_Ok {V : Type} (d : dict V) (k : nat) (v : V) :
  dict_get d k = Ok v → (k, v) ∈ d.
Proof.
  induction d as [|[k' v'] d IH]; simpl; [done|].
  case_bool_decide as Hk.
  - intros [= ->]. subst. by left.
  - intros ?. right. by apply IH.
Qed.

Lemma dict_get_lookup {V : Type} (d : dict V) (i k : nat) (v : V) :
  NoDup (dict_keys d) → d !! i = Some (k, v) → dict_get d k = Ok v.
Proof.
  unfold dict_keys. revert i.
  induction d as [|[k' v'] d IH]; intros i Hnd Hi; simpl in *; [done|].
  apply NoDup_cons in Hnd as [Hk' Hnd]. destruct i as [|i]; simpl in Hi.
  - injection Hi as -> ->. by rewrite bool_decide_true.
  - rewrite bool_decide_false; [by eapply IH|].
    intros ->. apply Hk'. apply list_elem_of_fmap. exists (k, v).
    split; [done|]. by eapply list_elem_of_lookup_2.
Qed.

Lemma dict_get_elem_of {V : Type} (d : dict V) (k : nat) (v : V) :
  NoDup (dict_keys d) → (k, v) ∈ d → dict_get d k = Ok v.
Proof.
  intros Hnd (i & Hi)%list_elem_of_lookup. by eapply dict_get_lookup.
Qed.

Lemma dict_of_list_fresh {V : Type} (pairs : list (nat * V)) :
  NoDup (fst <$> pairs) → dict_of_list pairs = pairs.
Proof.
  unfold dict_of_list. intros Hnd.
  cut (∀ d : dict V, NoDup (dict_keys d ++ (fst <$> pairs)) →
         foldl (λ d kv, dict_set d kv.1 kv.2) d pairs = d ++ pairs).
  { intros Hcut. by apply (Hcut []). }
  clear Hnd. induction pairs as [|[k v] pairs IH]; intros d Hnd; simpl.
  - by rewrite app_nil_r.
  - simpl in Hnd. rewrite dict_set_fresh.
    + rewrite IH; [by rewrite <- app_assoc|].
      unfold dict_keys. rewrite fmap_app. simpl. by rewrite <- app_assoc.
    + apply NoDup_app in Hnd as (_ & Hdisj & _). intros Hk.
      apply (Hdisj k Hk). by left.
Qed.

(* ===================================================================== *)
(** ** [np.unique] *)
(* ===================================================================== *)

Lemma elem_of_insert_sorted (x y : Z) (l : list Z) :
  y ∈ insert_sorted x l ↔ y = x ∨ y ∈ l.
Proof.
  induction l as [|z l IH]; simpl.
  - rewrite list_elem_of_singleton, elem_of_nil. tauto.
  - destruct (Z.ltb_spec x z); [by rewrite elem_of_cons|].
    destruct (Z.eqb_spec x z) as [->|Hne].
    + rewrite elem_of_cons. tauto.
    + rewrite !elem_of_cons, IH. tauto.
Qed.

Lemma insert_sorted_increasing (x : Z) (l : list Z) :
  StronglySorted Z.lt l → StronglySorted Z.lt (insert_sorted x l).
Proof.
  induction 1 as [|z l Hl IH Hz]; simpl.
  - repeat constructor.
  - destruct (Z.ltb_spec x z) as [Hlt|Hge].
    + constructor; [by constructor|]. constructor; [done|].
      eapply Forall_impl; [exact Hz|]. simpl. lia.
    + destruct (Z.eqb_spec x z) as [->|Hne]; [by constructor|].
      constructor; [done|]. apply Forall_forall. intros y Hy.
      apply elem_of_insert_sorted in Hy as [->|Hy]; [lia|].
      by eapply (proj1 (Forall_forall _ _) Hz).
Qed.

(** [np_unique] lists the distinct labels in increasing order. *)
Lemma np_unique_spec (labels_ : list Z) :
  StronglySorted Z.lt (np_unique labels_)
  ∧ ∀ label, label ∈ np_unique labels_ ↔ label ∈ labels_.
Proof.
  unfold np_unique. induction labels_ as [|x l [IHs IHe]]; simpl.
  - split; [constructor | done].
  - split; [by apply insert_sorted_increasing|].
    intros y. rewrite elem_of_insert_sorted, elem_of_cons, IHe. done.
Qed.

(* ===================================================================== *)
(** ** The registry of nodes *)
(* ===================================================================== *)

Lemma dict_keys_snoc {V : Type} (d : dict V) (k : nat) (v : V) (id : nat) :
  dict_keys d = seq 0 id → dict_keys (d ++ [(id, v)]) = seq 0 (S id).
Proof.
  intros Hd. unfold dict_keys in *. by rewrite fmap_app, Hd, seq_S.
Qed.

Lemma add_node_Ok (data_vals : ndarray) (idx : list nat)
    (nodes : dict (list bool)) (id : nat) (reg' : registry) :
  dict_keys nodes = seq 0 id →
  add_node data_vals idx (nodes, id) = Ok reg' →
  ∃ mask, reg' = (nodes ++ [(id, mask)], S id)
    ∧ marks_exactly (shape0 data_vals) mask (λ p, p ∈ idx).
Proof.
  intros Hkeys Hadd. unfold add_node in Hadd.
  unbind Hadd as point_mask Hset. simpl in Hadd.
  apply set_true_Ok in Hset as (_ & Hlen & Hmask).
  injection Hadd as <-. exists point_mask. split; [|done].
  rewrite dict_set_fresh, Nat.add_1_r; [done|].
  rewrite Hkeys, elem_of_seq. lia.
Qed.

Section Loop.
Variable clusterer : Clusterer.
Variable data_vals : ndarray.
Variable min_cluster_samples : Q.

Let n : nat := shape0 data_vals.
Let data_idx : list nat := np_arange n.

Lemma extends_keys nodes id reg' new :
  dict_keys nodes = seq 0 id → extends nodes id reg' new →
  dict_keys reg'.1 = seq 0 reg'.2.
Proof.
  intros Hkeys [-> Hnew]. simpl. unfold dict_keys in *.
  by rewrite fmap_app, Hkeys, Hnew, seq_app.
Qed.

Lemma label_loop_Ok (cube_data_idx : list nat) (labels_ ls : list Z)
    (nodes : dict (list bool)) (id : nat) (reg' : registry) :
  dict_keys nodes = seq 0 id →
  for_ ls (label_step data_vals cube_data_idx labels_) (nodes, id) = Ok reg' →
  ∃ new, extends nodes id reg' new
    ∧ Forall2 (λ node label,
                 length labels_ = length cube_data_idx
                 ∧ marks_exactly n node.2 (carries cube_data_idx labels_ label))
              new (base.filter (λ label, label ≠ (-1)%Z) ls).
Proof.
  revert nodes id. induction ls as [|label ls IH]; intros nodes id Hkeys Hfor.
  - injection Hfor as <-. exists []. split; [|constructor].
    split; [|done]. simpl. by rewrite app_nil_r, Nat.add_0_r.
  - simpl in Hfor. unbind Hfor as reg1 Hstep. unfold label_step in Hstep.
    rewrite filter_cons. case_bool_decide as Hlabel.
    + unbind Hstep as idx Hidx. unfold bool_index in Hidx.
      case_bool_decide as Hlen; [|done]. injection Hidx as <-.
      rewrite length_fmap in Hlen.
      apply add_node_Ok in Hstep as (mask & -> & Hlenm & Hmask); [|done].
      apply IH in Hfor as (new & [-> Hnew] & Hall);
        [|by apply dict_keys_snoc].
      rewrite decide_True by done.
      exists ((id, mask) :: new). split_and!.
      * split; simpl; [|by rewrite Hnew].
        rewrite <- app_assoc. simpl. f_equal. lia.
      * constructor; [|done]. split; [done|]. split; [done|]. simpl.
        intros p. rewrite Hmask, elem_of_compress. unfold carries.
        split; intros (j & Hj1 & Hj2); exists j; split; try done.
        -- apply list_lookup_fmap_Some in Hj1 as (l & Hb & Hl).
           symmetry in Hb. apply bool_decide_eq_true in Hb. by subst.
        -- rewrite list_lookup_fmap, Hj2. simpl.
           by rewrite bool_decide_true.
    + injection Hstep as <-.
      rewrite decide_False by (intros Hne; by apply Hne). by apply IH.
Qed.

Lemma extends_nil nodes id : extends nodes id (nodes, id) [].
Proof. split; simpl; [by rewrite app_nil_r, Nat.add_0_r | done]. Qed.

Lemma extends_trans nodes id reg1 new1 reg2 new2 :
  extends nodes id reg1 new1 → extends reg1.1 reg1.2 reg2 new2 →
  extends nodes id reg2 (new1 ++ new2).
Proof.
  intros [-> H1] [-> H2]. simpl in *. split.
  - rewrite length_app, <- app_assoc. f_equal. lia.
  - unfold dict_keys in *. by rewrite fmap_app, length_app, seq_app, H1, H2.
Qed.

Lemma gate_shape (cube_data : ndarray) (cube : list nat) :
  shape0 cube_data = length cube →
  Qle_bool min_cluster_samples (inject_Z (Z.of_nat (shape0 cube_data)))
  = passes_gate min_cluster_samples cube.
Proof. intros ->. done. Qed.

(** One hypercube, with a clusterer that can [fit]. *)
Lemma cube_step_fit_Ok (fit_ : ndarray → result (list Z)) (cube : list nat)
    (nodes : dict (list bool)) (id : nat) (reg' : registry) :
  fit clusterer = Some fit_ →
  dict_keys nodes = seq 0 id →
  cube_step clusterer data_vals data_idx min_cluster_samples (nodes, id) cube
    = Ok reg' →
  let labels_ := labels_of clusterer fit_ data_vals cube in
  ∃ new, extends nodes id reg' new
    ∧ Forall (λ i, i < n) cube
    ∧ if passes_gate min_cluster_samples cube
      then Forall2 (λ node label,
                      length labels_ = length cube
                      ∧ marks_exactly n node.2 (carries cube labels_ label))
                   new (base.filter (λ label, label ≠ (-1)%Z)
                                    (np_unique labels_))
      else new = [].
Proof.
  intros Hfit Hkeys Hstep labels_. unfold cube_step in Hstep.
  unbind Hstep as cube_data Hdata.
  pose proof Hdata as [Hcube Hshape]%cube_data_of_Ok.
  unbind Hstep as cube_data_idx Hidx.
  apply take_idx_arange_Ok in Hidx as [_ ->].
  rewrite (gate_shape _ _ Hshape) in Hstep.
  destruct (passes_gate min_cluster_samples cube).
  - rewrite Hfit in Hstep. unbind Hstep as labels Hfitted.
    assert (Hlabels : labels_ = labels).
    { unfold labels_, labels_of. rewrite Hdata. simpl. by rewrite Hfitted. }
    rewrite Hlabels.
    apply label_loop_Ok in Hstep as (new & Hnew & Hall); [|done].
    by exists new.
  - injection Hstep as <-. exists []. split_and!; try done.
    apply extends_nil.
Qed.

(** One hypercube, with a clusterer that has no [fit]. *)
Lemma cube_step_nofit_Ok (cube : list nat)
    (nodes : dict (list bool)) (id : nat) (reg' : registry) :
  fit clusterer = None →
  dict_keys nodes = seq 0 id →
  cube_step clusterer data_vals data_idx min_cluster_samples (nodes, id) cube
    = Ok reg' →
  ∃ new, extends nodes id reg' new
    ∧ Forall (λ i, i < n) cube
    ∧ if passes_gate min_cluster_samples cube
      then ∃ mask, new = [(id, mask)]
             ∧ marks_exactly n mask (λ p, p ∈ cube)
      else new = [].
Proof.
  intros Hfit Hkeys Hstep. unfold cube_step in Hstep.
  unbind Hstep as cube_data Hdata.
  pose proof Hdata as [Hcube Hshape]%cube_data_of_Ok.
  unbind Hstep as cube_data_idx Hidx.
  apply take_idx_arange_Ok in Hidx as [_ ->].
  rewrite (gate_shape _ _ Hshape) in Hstep.
  destruct (passes_gate min_cluster_samples cube).
  - rewrite Hfit in Hstep.
    apply add_node_Ok in Hstep as (mask & -> & Hmask); [|done].
    exists [(id, mask)]. split_and!; [|done|by exists mask].
    split; simpl; [by rewrite Nat.add_1_r | done].
  - injection Hstep as <-. exists []. split_and!; try done.
    apply extends_nil.
Qed.
End Loop.

Lemma StronglySorted_lt_NoDup (l : list Z) : StronglySorted Z.lt l → NoDup l.
Proof.
  induction 1 as [|x l Hl IH Hx]; constructor; [|done].
  intros Hin. apply (proj1 (Forall_forall _ _) Hx) in Hin. lia.
Qed.

Lemma gate_positive (min_cluster_samples : Q) (cube : list nat) :
  (0 < min_cluster_samples)%Q → passes_gate min_cluster_samples cube = true →
  0 < length cube.
Proof.
  unfold passes_gate. intros Hmin Hgate. apply Qle_bool_iff in Hgate.
  pose proof (Qlt_le_trans _ _ _ Hmin Hgate) as Hlt.
  unfold Qlt in Hlt. simpl in Hlt. lia.
Qed.

Section Cubes.
Variable clusterer : Clusterer.
Variable data_vals : ndarray.
Variable min_cluster_samples : Q.

Let n : nat := shape0 data_vals.
Let data_idx : list nat := np_arange n.
Let step := cube_step clusterer data_vals data_idx min_cluster_samples.

(** The nodes of the registry have masks over the [n] points, and these
    are not empty when the clusterer can [fit] or the gate is positive. *)
Let node_ok (node : nat * list bool) : Prop :=
  length node.2 = n
  ∧ (is_Some (fit clusterer) ∨ (0 < min_cluster_samples)%Q →
     ∃ p, node.2 !! p = Some true).

Lemma cube_step_Ok (cube : list nat) (nodes : dict (list bool)) (id : nat)
    (reg' : registry) :
  dict_keys nodes = seq 0 id →
  step (nodes, id) cube = Ok reg' →
  ∃ new, extends nodes id reg' new
    ∧ Forall (λ node, node_ok node
                      ∧ ∀ p, node.2 !! p = Some true → p ∈ cube) new.
Proof.
  intros Hkeys Hstep. destruct (fit clusterer) as [fit_|] eqn:Hfit.
  - eapply cube_step_fit_Ok in Hstep as (new & Hext & _ & Hnew); [|done..].
    exists new. split; [done|].
    destruct (passes_gate min_cluster_samples cube); [|by subst].
    eapply Forall2_Forall_l; [exact Hnew|].
    apply Forall_forall. intros label Hlabel node (Hlen & Hlenm & Hmask).
    apply list_elem_of_filter in Hlabel as [_ Hlabel].
    apply (proj1 (proj2 (np_unique_spec _) _)) in Hlabel.
    apply list_elem_of_lookup in Hlabel as [j Hj].
    split; [split; [done|]|].
    + intros _. destruct (lookup_lt_is_Some_2 cube j) as [p Hp].
      { rewrite <- Hlen. by eapply lookup_lt_Some. }
      exists p. apply Hmask. by exists j.
    + intros p Hp. apply Hmask in Hp as (j' & Hp & _).
      by eapply list_elem_of_lookup_2.
  - eapply cube_step_nofit_Ok in Hstep as (new & Hext & _ & Hnew); [|done..].
    exists new. split; [done|].
    destruct (passes_gate min_cluster_samples cube) eqn:Hgate; [|by subst].
    destruct Hnew as (mask & -> & Hlen & Hmask).
    constructor; [|constructor]. split; [split; [done|]|].
    + intros [[? [=]]|Hmin]. simpl.
      pose proof (gate_positive _ _ Hmin Hgate) as Hpos.
      destruct cube as [|p cube]; [simpl in Hpos; lia|].
      exists p. apply Hmask. by left.
    + intros p. apply Hmask.
Qed.

(** The invariant of the loop over the hypercubes. *)
Lemma build_loop_Ok (cubes : list (list nat)) (reg reg' : registry) :
  dict_keys reg.1 = seq 0 reg.2 → Forall node_ok reg.1 →
  for_ cubes step reg = Ok reg' →
  dict_keys reg'.1 = seq 0 reg'.2 ∧ Forall node_ok reg'.1.
Proof.
  intros Hkeys Hnodes Hfor.
  apply (for_invariant
           (λ reg, dict_keys reg.1 = seq 0 reg.2 ∧ Forall node_ok reg.1)
           cubes step reg reg'); [|done..].
  clear. intros [nodes id] cube reg' _ [Hkeys Hnodes] Hstep. simpl in *.
  apply cube_step_Ok in Hstep as (new & Hext & Hnew); [|done].
  split; [by eapply extends_keys|].
  destruct Hext as [-> _]. simpl. apply Forall_app. split; [done|].
  eapply Forall_impl; [exact Hnew|]. by intros node [? _].
Qed.

(** With a clusterer that can [fit], the loop creates one node per
    source, in order. *)
Lemma build_loop_fit_Ok (fit_ : ndarray → result (list Z))
    (cubes : list (list nat)) (nodes : dict (list bool)) (id : nat)
    (reg' : registry) :
  fit clusterer = Some fit_ →
  dict_keys nodes = seq 0 id →
  for_ cubes step (nodes, id) = Ok reg' →
  ∃ new, extends nodes id reg' new
    ∧ Forall2 (created_for n) new
        (node_sources clusterer fit_ data_vals min_cluster_samples cubes).
Proof.
  intros Hfit. revert nodes id.
  induction cubes as [|cube cubes IH]; intros nodes id Hkeys Hfor.
  - injection Hfor as <-. exists []. split; [apply extends_nil | constructor].
  - simpl in Hfor. unbind Hfor as reg1 Hstep.
    eapply cube_step_fit_Ok in Hstep as (new1 & Hext1 & _ & Hnew1); [|done..].
    pose proof (extends_keys _ _ _ _ Hkeys Hext1) as Hkeys1.
    destruct reg1 as [nodes1 id1]. simpl in Hkeys1.
    apply IH in Hfor as (new2 & Hext2 & Hnew2); [|done].
    exists (new1 ++ new2). split; [by eapply extends_trans|].
    unfold node_sources. rewrite bind_cons. apply Forall2_app; [|done].
    unfold cube_sources.
    destruct (passes_gate min_cluster_samples cube); [|subst; constructor].
    apply Forall2_fmap_r. eapply Forall2_impl; [exact Hnew1|].
    by intros node label [_ Hmask].
Qed.

(** A hypercube of valid indices that does not pass the gate leaves the
    registry as it is. *)
Lemma cube_step_below_gate (cube : list nat) (reg : registry) :
  (metric clusterer = "precomputed"%string → shape0 data_vals = shape1 data_vals) →
  Forall (λ i, i < n) cube →
  passes_gate min_cluster_samples cube = false →
  step reg cube = Ok reg.
Proof.
  intros Hsquare Hcube Hgate. unfold step, cube_step.
  assert (∃ cube_data, cube_data_of clusterer data_vals cube = Ok cube_data
                       ∧ shape0 cube_data = length cube)
    as (cube_data & -> & Hshape).
  { unfold cube_data_of. rewrite take_rows_in_range by done.
    case_bool_decide as Hmetric; [by eexists|].
    simpl. unfold take_cols. simpl.
    rewrite <- Hsquare by (by destruct (decide (metric clusterer = "precomputed"%string))).
    apply forallb_lt in Hcube. fold n. rewrite Hcube. by eexists. }
  simpl. unfold data_idx. rewrite take_idx_arange by done. simpl.
  by rewrite (gate_shape _ _ _ Hshape), Hgate.
Qed.
End Cubes.

(* ===================================================================== *)
(** ** Node creation *)
(* ===================================================================== *)

Lemma build_nodes_Ok (data : PyData) (cover : Cover.t) (clusterer : Clusterer)
    (reg : registry) :
  build_nodes data cover clusterer = Ok reg →
  shape0 (values data) = Cover.n_points cover
  ∧ (metric clusterer = "precomputed"%string →
     shape0 (values data) = shape1 (values data))
  ∧ for_ (Cover.hypercubes cover)
      (cube_step clusterer (np_array data) (np_arange (shape0 (values data)))
         (min_samples_of clusterer)) ([], 0) = Ok reg.
Proof.
  unfold build_nodes. intros H. unbind H as u1 Hrows. unbind H as u2 Hsquare.
  apply assert_Ok, bool_decide_eq_true in Hrows.
  split_and!; [done| |done].
  intros Hmetric. rewrite bool_decide_true in Hsquare by done.
  by apply assert_Ok, bool_decide_eq_true in Hsquare.
Qed.

Lemma StronglySorted_filter_fmap {A B : Type} (R : relation A)
    (R' : relation B) (P : A → Prop) `{∀ x, Decision (P x)} (f : A → B)
    (l : list A) :
  (∀ x y, R x y → R' (f x) (f y)) →
  StronglySorted R l → StronglySorted R' (f <$> base.filter P l).
Proof.
  intros Hf. induction 1 as [|x l Hl IH Hx]; [constructor|].
  rewrite filter_cons. destruct (decide (P x)); [|done].
  rewrite fmap_cons. constructor; [done|].
  apply Forall_fmap, Forall_forall. intros y [_ Hy]%list_elem_of_filter.
  apply Hf. by eapply (proj1 (Forall_forall _ _) Hx).
Qed.

(** The sources of one hypercube: every label of the hypercube but [-1],
    once, in increasing order; none when the gate is not passed. *)
Lemma cube_sources_spec (clusterer : Clusterer)
    (fit_ : ndarray → result (list Z)) (data_vals : ndarray)
    (min_cluster_samples : Q) (cube : list nat) :
  let labels_ := labels_of clusterer fit_ data_vals cube in
  let sources :=
    cube_sources clusterer fit_ data_vals min_cluster_samples cube in
  StronglySorted (λ s1 s2 : source, (s1.2 < s2.2)%Z) sources
  ∧ ∀ src : source,
      src ∈ sources
      ↔ passes_gate min_cluster_samples cube = true
        ∧ src.1 = (cube, labels_) ∧ src.2 ∈ labels_ ∧ src.2 ≠ (-1)%Z.
Proof.
  intros labels_ sources. unfold sources, cube_sources. fold labels_.
  destruct (np_unique_spec labels_) as [Hsorted Helem].
  destruct (passes_gate min_cluster_samples cube).
  - split.
    + by apply (StronglySorted_filter_fmap Z.lt).
    + intros [[c ls] label]. rewrite list_elem_of_fmap. simpl. split.
      * intros (l & [= -> -> ->] & Hl).
        apply list_elem_of_filter in Hl as [Hne Hl]. by apply Helem in Hl.
      * intros (_ & [= -> ->] & Hl & Hne). exists label. split; [done|].
        apply list_elem_of_filter. split; [done|]. by apply Helem.
  - split; [constructor|]. intros src. rewrite elem_of_nil.
    split; [done | by intros [? _]].
Qed.

(** C2.  With a clusterer that can [fit], the nodes in the registry are,
    in order, the nodes created for the sources: one node for every
    hypercube that passes the gate and every distinct label of it other
    than [-1], hypercube by hypercube and label by label; the mask of the
    node marks exactly the subset points carrying the label; the ids are
    [0, 1, 2, ...] without a gap or a repetition. *)
Theorem nodes_created_per_label (data : PyData) (cover : Cover.t)
    (clusterer : Clusterer) (fit_ : ndarray → result (list Z))
    (reg : registry) :
  fit clusterer = Some fit_ →
  build_nodes data cover clusterer = Ok reg →
  let sources :=
    node_sources clusterer fit_ (np_array data) (min_samples_of clusterer)
                 (Cover.hypercubes cover) in
  Forall2 (created_for (shape0 (values data))) reg.1 sources
  ∧ dict_keys reg.1 = seq 0 (length sources)
  ∧ reg.2 = length sources
  ∧ Forall (λ src : source, src.2 ≠ (-1)%Z) sources.
Proof.
  intros Hfit Hbuild. cbv zeta.
  apply build_nodes_Ok in Hbuild as (_ & _ & Hfor).
  eapply build_loop_fit_Ok in Hfor as (new & [-> Hkeys] & Hnew); [|done..].
  pose proof (Forall2_length _ _ _ Hnew) as Hlen. simpl.
  split_and!; [done | by rewrite Hkeys, Hlen | done |].
  apply Forall_forall. intros src Hsrc.
  apply list_elem_of_bind in Hsrc as (cube & Hsrc & _).
  by apply cube_sources_spec in Hsrc as (_ & _ & _ & ?).
Qed.

Lemma nodes_created_per_label_witness :
  let sources :=
    node_sources Examples.cycling Examples.cycling_fit
      (np_array Examples.raw) (min_samples_of Examples.cycling)
      (Cover.hypercubes Examples.overlapping) in
  let reg : registry :=
    ([(0, [true; false; false; true; false; false]);
      (1, [false; true; false; false; false; false]);
      (2, [false; false; false; true; false; false]);
      (3, [false; false; false; false; true; false]);
      (4, [true; false; false; false; false; false]);
      (5, [false; false; false; false; false; true])], 6) in
  Forall2 (created_for 6) reg.1 sources
  ∧ dict_keys reg.1 = seq 0 (length sources)
  ∧ reg.2 = length sources
  ∧ Forall (λ src : source, src.2 ≠ (-1)%Z) sources.
Proof.
  exact (nodes_created_per_label Examples.raw Examples.overlapping
           Examples.cycling _ _ eq_refl eq_refl).
Defined.

(** C10.  One hypercube, a set of point indices, handled by a clusterer
    that can [fit]: the masks of the nodes created from it are pairwise
    disjoint, and each marks only points of the hypercube. *)
Theorem cube_nodes_disjoint (clusterer : Clusterer)
    (fit_ : ndarray → result (list Z)) (data_vals : ndarray)
    (min_cluster_samples : Q) (cube : list nat)
    (nodes : dict (list bool)) (id : nat) (reg' : registry) :
  fit clusterer = Some fit_ →
  NoDup cube →
  dict_keys nodes = seq 0 id →
  cube_step clusterer data_vals (np_arange (shape0 data_vals))
            min_cluster_samples (nodes, id) cube = Ok reg' →
  ∃ new, extends nodes id reg' new
    ∧ (∀ i j node_i node_j p,
         i ≠ j → new !! i = Some node_i → new !! j = Some node_j →
         ¬ (node_i.2 !! p = Some true ∧ node_j.2 !! p = Some true))
    ∧ (∀ node p, node ∈ new → node.2 !! p = Some true → p ∈ cube).
Proof.
  intros Hfit Hset Hkeys Hstep.
  eapply cube_step_fit_Ok in Hstep as (new & Hext & _ & Hnew); [|done..].
  exists new. split; [done|].
  destruct (passes_gate min_cluster_samples cube); cycle 1.
  { subst new. split; [by intros [|?] | by intros ? ? ?%elem_of_nil]. }
  set (labels_ := labels_of clusterer fit_ data_vals cube) in *.
  assert (Hdistinct : NoDup (base.filter (λ label, label ≠ (-1)%Z)
                                         (np_unique labels_))).
  { apply NoDup_filter, StronglySorted_lt_NoDup, np_unique_spec. }
  split.
  - intros i j node_i node_j p Hij Hi Hj [Hpi Hpj].
    destruct (Forall2_lookup_l _ _ _ _ _ Hnew Hi) as (li & Hli & _ & _ & Hmi).
    destruct (Forall2_lookup_l _ _ _ _ _ Hnew Hj) as (lj & Hlj & _ & _ & Hmj).
    apply Hmi in Hpi as (a & Hcube_a & Hlabel_a).
    apply Hmj in Hpj as (b & Hcube_b & Hlabel_b).
    pose proof (NoDup_lookup _ _ _ _ Hset Hcube_a Hcube_b) as <-.
    assert (li = lj) by congruence. subst lj.
    apply Hij. exact (NoDup_lookup _ _ _ _ Hdistinct Hli Hlj).
  - intros node p Hnode Hp. apply list_elem_of_lookup in Hnode as [i Hi].
    destruct (Forall2_lookup_l _ _ _ _ _ Hnew Hi) as (li & _ & _ & _ & Hm).
    destruct (proj1 (Hm p) Hp) as (a & Hcube_a & _).
    by eapply list_elem_of_lookup_2.
Qed.

Lemma cube_nodes_disjoint_witness :
  ∃ new, extends [] 0
           ([(0, [true; false; false; true; false; false]);
             (1, [false; true; false; false; false; false])], 2) new
    ∧ (∀ i j node_i node_j p,
         i ≠ j → new !! i = Some node_i → new !! j = Some node_j →
         ¬ (node_i.2 !! p = Some true ∧ node_j.2 !! p = Some true))
    ∧ (∀ node p, node ∈ new → node.2 !! p = Some true → p ∈ [0; 1; 2; 3]).
Proof.
  refine (cube_nodes_disjoint Examples.cycling Examples.cycling_fit
            Examples.points 1%Q [0; 1; 2; 3] [] 0 _ eq_refl _ eq_refl eq_refl).
  apply NoDup_ListNoDup. repeat constructor; simpl; lia.
Defined.

(* ===================================================================== *)
(** ** The empty result *)
(* ===================================================================== *)

(** C7.  When the loop over the hypercubes ends without a node, [map]
    returns the empty dictionary and raises nothing; this is the case when
    the preconditions hold and no hypercube (of valid point indices)
    reaches the minimum-sample threshold. *)
Theorem map_no_nodes (data : PyData) (cover : Cover.t) (clusterer : Clusterer) :
  (∀ reg, build_nodes data cover clusterer = Ok reg → reg.1 = [] →
          map data cover clusterer = Ok None)
  ∧ (shape0 (values data) = Cover.n_points cover →
     (metric clusterer = "precomputed"%string →
      shape0 (values data) = shape1 (values data)) →
     Cover.in_range cover →
     Forall (λ cube, passes_gate (min_samples_of clusterer) cube = false)
            (Cover.hypercubes cover) →
     map data cover clusterer = Ok None).
Proof.
  assert (Hempty : ∀ reg, build_nodes data cover clusterer = Ok reg →
                          reg.1 = [] → map data cover clusterer = Ok None).
  { intros [nodes id] Hbuild Hnodes. simpl in Hnodes. subst nodes.
    unfold map. by rewrite Hbuild. }
  split; [done|]. intros Hrows Hsquare Hrange Hgate.
  apply (Hempty ([], 0)); [|done]. unfold build_nodes.
  rewrite (bool_decide_true (shape0 (values data) = Cover.n_points cover))
    by done. simpl.
  assert (Hassert : (if bool_decide (metric clusterer = "precomputed"%string)
                     then assert (bool_decide (shape0 (np_array data)
                                               = shape1 (np_array data)))
                     else Ok tt) = Ok tt).
  { case_bool_decide as Hmetric; [|done]. unfold np_array.
    by rewrite bool_decide_true by auto. }
  rewrite Hassert. simpl. clear Hassert Hempty.
  unfold Cover.in_range in Hrange. rewrite <- Hrows in Hrange.
  generalize (@nil (nat * list bool), 0). intros reg.
  induction (Cover.hypercubes cover) as [|cube cubes IH]; [done|].
  apply Forall_cons in Hrange as [Hcube Hrange].
  apply Forall_cons in Hgate as [Hcube_gate Hgate]. simpl.
  rewrite cube_step_below_gate by done. simpl. by apply IH.
Qed.

Lemma map_no_nodes_witness :
  map Examples.raw Examples.two_cubes (Examples.one_cluster "euclidean")
    ≠ Ok None
  ∧ map Examples.raw (Cover.mk 6 Examples.points [[0; 1]; [4; 5]] 2 0%Q)
        Examples.demanding = Ok None.
Proof.
  split; [by vm_compute|].
  refine (proj2 (map_no_nodes Examples.raw
                   (Cover.mk 6 Examples.points [[0; 1]; [4; 5]] 2 0%Q)
                   Examples.demanding) eq_refl _ _ _).
  - intros [=].
  - unfold Cover.in_range. simpl. repeat constructor.
  - simpl. repeat constructor.
Defined.

(* ===================================================================== *)
(** ** From the registry to the graph *)
(* ===================================================================== *)

Lemma map_Ok_Some (data : PyData) (cover : Cover.t) (clusterer : Clusterer)
    (g : Graph) :
  map data cover clusterer = Ok (Some g) →
  ∃ reg, build_nodes data cover clusterer = Ok reg
    ∧ reg.1 ≠ []
    ∧ assemble data cover clusterer reg.1 = Ok g.
Proof.
  unfold map. intros H. unbind H as reg Hbuild. exists reg. split; [done|].
  destruct reg as [nodes_ id]. simpl in *.
  case_bool_decide as Hlen; [done|]. unbind H as g' Hg.
  injection H as <-. split; [|done]. by intros ->.
Qed.

(** What the loop over the hypercubes establishes. *)
Lemma build_nodes_registry (data : PyData) (cover : Cover.t)
    (clusterer : Clusterer) (reg : registry) :
  build_nodes data cover clusterer = Ok reg →
  dict_keys reg.1 = seq 0 (length reg.1)
  ∧ Forall (λ node : nat * list bool,
              length node.2 = shape0 (values data)
              ∧ (is_Some (fit clusterer) ∨ (0 < min_samples_of clusterer)%Q →
                 ∃ p, node.2 !! p = Some true)) reg.1.
Proof.
  intros (_ & _ & Hfor)%build_nodes_Ok.
  apply build_loop_Ok in Hfor as [Hkeys Hnodes]; [|done|constructor].
  split; [|done]. rewrite Hkeys. f_equal.
  apply (f_equal length) in Hkeys. unfold dict_keys in Hkeys.
  by rewrite length_fmap, length_seq in Hkeys.
Qed.

Lemma NoDup_dict_keys_seq {V : Type} (d : dict V) (k : nat) :
  dict_keys d = seq 0 k → NoDup (dict_keys d).
Proof. intros ->. apply NoDup_seq. Qed.

Section PointIds.
Variable nodes : dict (list bool).
Variable n : nat.
Hypothesis Hkeys : NoDup (dict_keys nodes).

Lemma point_ids_loop (sub : dict (list bool))
    (acc pairs : list (nat * list nat)) :
  sub ⊆ nodes →
  for_ (dict_keys sub) (point_ids_step nodes (np_arange n)) acc = Ok pairs →
  pairs = acc ++ (point_ids n <$> sub)
  ∧ Forall (λ node : nat * list bool, length node.2 = n) sub.
Proof.
  revert acc. induction sub as [|[id mask] sub IH]; intros acc Hsub Hfor.
  - injection Hfor as <-. by rewrite app_nil_r.
  - simpl in Hfor. unbind Hfor as acc1 Hstep.
    unfold point_ids_step in Hstep.
    rewrite (dict_get_elem_of nodes id mask) in Hstep
      by (done || apply Hsub; by left).
    simpl in Hstep. unbind Hstep as ids Hids. injection Hstep as <-.
    unfold bool_index in Hids. case_bool_decide as Hlen; [|done].
    injection Hids as <-. unfold np_arange in Hlen. rewrite length_seq in Hlen.
    apply IH in Hfor as [-> Hall].
    + split; [by rewrite <- app_assoc | by constructor].
    + intros node Hnode. apply Hsub. by right.
Qed.
End PointIds.

Lemma assemble_Ok (data : PyData) (cover : Cover.t) (clusterer : Clusterer)
    (nodes_ : dict (list bool)) (g : Graph) :
  dict_keys nodes_ = seq 0 (length nodes_) →
  assemble data cover clusterer nodes_ = Ok g →
  nodes g = point_ids (shape0 (values data)) <$> nodes_
  ∧ node_keys g = dict_keys nodes_
  ∧ dict_keys (nodes g) = dict_keys nodes_
  ∧ sample_names g = sample_names_of data
  ∧ edges g = stack_index (adj_matrix g)
  ∧ for_ (enumerate (dict_keys nodes_)) (node_step cover nodes_)
      (np_zeros (length nodes_) (shape1 (Cover.data cover)),
       np_zeros (length nodes_) 1) = Ok (node_positions g, node_sizes g)
  ∧ for_ (combinations2 (dict_keys nodes_)) (edge_step nodes_)
      (DataFrame_nan (dict_keys nodes_) (dict_keys nodes_)) = Ok (adj_matrix g).
Proof.
  intros Hkeys. unfold assemble. intros H.
  unbind H as acc Hacc. unbind H as adj Hadj. unbind H as pairs Hpairs.
  injection H as <-. simpl.
  apply point_ids_loop in Hpairs as [-> _];
    [|by eapply NoDup_dict_keys_seq|done]. simpl.
  assert (Hfst : fst <$> (point_ids (shape0 (values data)) <$> nodes_)
                 = dict_keys nodes_).
  { unfold dict_keys. rewrite <- list_fmap_compose. by apply list_fmap_ext. }
  rewrite dict_of_list_fresh
    by (rewrite Hfst; by eapply NoDup_dict_keys_seq).
  split_and!; try done. by destruct acc.
Qed.

(* ===================================================================== *)
(** ** Row invariance *)
(* ===================================================================== *)

(** C5, as the code has it.  A graph over data with [n] rows has [n]
    sample names; the point ids of its nodes are below [n]; the masks the
    nodes were built from have length [n], and each has a [True] entry when
    the clusterer can [fit] or the minimum-sample threshold is positive. *)
Theorem map_row_invariance (data : PyData) (cover : Cover.t)
    (clusterer : Clusterer) (g : Graph) :
  map data cover clusterer = Ok (Some g) →
  index_matches data →
  let n := shape0 (values data) in
  length (sample_names g) = n
  ∧ Forall (λ node : nat * list nat, Forall (λ p, p < n) node.2) (nodes g)
  ∧ ∃ reg, build_nodes data cover clusterer = Ok reg
      ∧ nodes g = point_ids n <$> reg.1
      ∧ Forall (λ node : nat * list bool,
                  length node.2 = n
                  ∧ (is_Some (fit clusterer)
                     ∨ (0 < min_samples_of clusterer)%Q →
                     ∃ p, node.2 !! p = Some true)) reg.1.
Proof.
  intros (reg & Hbuild & _ & Hg)%map_Ok_Some Hindex n.
  pose proof (build_nodes_registry _ _ _ _ Hbuild) as [Hkeys Hnodes].
  apply assemble_Ok in Hg as (Hg & _ & _ & Hnames & _); [|done].
  split_and!.
  - rewrite Hnames. unfold sample_names_of.
    destruct (index data) as [labels|] eqn:Hlabels; [by apply Hindex|].
    by rewrite length_fmap, length_seq.
  - rewrite Hg. apply Forall_fmap, Forall_forall. intros node _.
    apply Forall_forall. intros p Hp. simpl in Hp.
    apply compress_seq_lt in Hp. lia.
  - by exists reg.
Qed.

Lemma map_row_invariance_witness :
  ∃ g, map Examples.raw Examples.overlapping Examples.cycling = Ok (Some g)
    ∧ index_matches Examples.raw
    ∧ length (sample_names g) = 6
    ∧ Forall (λ node : nat * list nat, Forall (λ p, p < 6) node.2) (nodes g)
    ∧ ∃ reg, build_nodes Examples.raw Examples.overlapping Examples.cycling
             = Ok reg
        ∧ nodes g = point_ids 6 <$> reg.1
        ∧ Forall (λ node : nat * list bool,
                    length node.2 = 6
                    ∧ (is_Some (fit Examples.cycling)
                       ∨ (0 < min_samples_of Examples.cycling)%Q →
                       ∃ p, node.2 !! p = Some true)) reg.1.
Proof.
  eexists. split; [vm_compute; reflexivity|].
  assert (Hindex : index_matches Examples.raw) by (intros labels [=]).
  split; [exact Hindex|].
  apply (map_row_invariance Examples.raw Examples.overlapping
           Examples.cycling); [vm_compute; reflexivity | exact Hindex].
Defined.

(** C5 fails as stated: without [fit], a threshold of zero lets the empty
    hypercube through, and the node created for it has no member. *)
Lemma empty_node_counterexample :
  build_nodes Examples.raw Examples.with_empty_cube Examples.fitless
  = Ok ([(0, [false; false; false; false; false; false]);
         (1, [false; false; false; false; true; true])], 2)
  ∧ match map Examples.raw Examples.with_empty_cube Examples.fitless with
    | Ok (Some g) => nodes g = [(0, []); (1, [4; 5])]
    | _ => False
    end.
Proof. split; vm_compute; reflexivity. Qed.

(* ===================================================================== *)
(** ** Positions and sizes of the nodes *)
(* ===================================================================== *)



(** The depth [length a] is enough for [pairwise_sum]: any greater depth
    gives the same sum. *)
Lemma pairwise_sum_depth (depth : nat) (a : list float) :
  length a ≤ depth → pairwise_sum_upto depth a = pairwise_sum a.
Proof.
  unfold pairwise_sum.
  assert (H : ∀ d1 d2 (l : list float), length l ≤ d1 → length l ≤ d2 →
              pairwise_sum_upto d1 l = pairwise_sum_upto d2 l).
  { induction d1 as [|d1 IH]; intros d2 l H1 H2.
    - destruct l; [|simpl in H1; lia]. by destruct d2.
    - destruct d2 as [|d2].
      { destruct l; [done | simpl in H2; lia]. }
      destruct l as [|a0 [|a1 [|a2 [|a3 [|a4 [|a5 [|a6 [|a7 l]]]]]]]];
        try done.
      cbn [pairwise_sum_upto].
      set (l8 := a0 :: a1 :: a2 :: a3 :: a4 :: a5 :: a6 :: a7 :: l) in *.
      case_bool_decide as Hn; [done|].
      set (n2 := length l8 / 2 - (length l8 / 2) mod 8).
      assert (Hhalf : length l8 / 2 < length l8)
        by (apply Nat.div_lt; lia).
      assert (H64 : 64 ≤ length l8 / 2)
        by (apply Nat.div_le_lower_bound; lia).
      assert (Hmod : (length l8 / 2) mod 8 < 8)
        by (apply Nat.mod_upper_bound; lia).
      assert (Hn2 : 0 < n2 ∧ n2 < length l8) by (unfold n2; lia).
      f_equal; apply IH; rewrite ?length_take, ?length_drop; lia. }
  intros Hlen. by apply H.
Qed.



Lemma fmap_nth_seq {A : Type} (d : A) (l : list A) :
  (λ i, nth i l d) <$> seq 0 (length l) = l.
Proof.
  induction l as [|x l IH]; [done|]. simpl. f_equal.
  rewrite <- fmap_S_seq, <- list_fmap_compose. exact IH.
Qed.


Lemma length_mean_axis0 (a : ndarray) : length (mean_axis0 a) = shape1 a.
Proof. unfold mean_axis0. by rewrite length_fmap, length_seq. Qed.

Lemma np_average_axis0_Ok (a : ndarray) (avg : list float) :
  np_average_axis0 a = Ok avg ↔ shape1 a ≠ 0 ∧ avg = mean_axis0 a.
Proof.
  unfold np_average_axis0. cbv zeta. rewrite length_mean_axis0.
  case_bool_decide; split; try done.
  - by intros [? _].
  - by intros [= <-].
  - by intros [_ ->].
Qed.


Lemma node_step_Ok (cover : Cover.t) (nodes_ : dict (list bool))
    (acc acc' : ndarray * ndarray) (i id : nat) :
  node_step cover nodes_ acc (i, id) = Ok acc' →
  ∃ mask data_in_node,
    dict_get nodes_ id = Ok mask
    ∧ mask_rows (Cover.data cover) mask = Ok data_in_node
    ∧ shape1 data_in_node ≠ 0
    ∧ length (mean_axis0 data_in_node) = shape1 acc.1
    ∧ acc'.1 = NDArray (shape0 acc.1) (shape1 acc.1)
                 (alter (λ row, zip_with PrimFloat.add row
                                   (mean_axis0 data_in_node))
                        i (tolist acc.1))
    ∧ acc'.2 = NDArray (shape0 acc.2) (shape1 acc.2)
                 (alter (fmap (λ y, (y + float_of_nat (shape0 data_in_node))%float))
                        i (tolist acc.2)).
Proof.
  unfold node_step. intros H. unbind H as mask Hmask.
  unbind H as data_in_node Hrows. unbind H as avg Havg.
  apply np_average_axis0_Ok in Havg as [Hcolumns ->].
  unbind H as positions Hpos.
  unbind H as sizes Hsizes. injection H as <-. simpl.
  exists mask, data_in_node. unfold iadd_row in Hpos.
  unfold iadd_row_scalar in Hsizes.
  repeat case_bool_decide; try done.
  injection Hpos as <-. injection Hsizes as <-. done.
Qed.

Section NodeLoop.
Variable cover : Cover.t.
Variable nodes_ : dict (list bool).

(** Row [i] after the step for the node [id]. *)
Let updated (acc acc' : ndarray * ndarray) (i id : nat) : Prop :=
  ∃ mask data_in_node,
    dict_get nodes_ id = Ok mask
    ∧ mask_rows (Cover.data cover) mask = Ok data_in_node
    ∧ shape1 data_in_node ≠ 0
    ∧ length (mean_axis0 data_in_node) = shape1 acc.1
    ∧ tolist acc'.1 !! i
      = (λ row, zip_with PrimFloat.add row (mean_axis0 data_in_node))
          <$> tolist acc.1 !! i
    ∧ tolist acc'.2 !! i
      = fmap (λ y, (y + float_of_nat (shape0 data_in_node))%float)
          <$> tolist acc.2 !! i.

Lemma node_loop_Ok (items : list (nat * nat)) (acc acc' : ndarray * ndarray) :
  NoDup (fst <$> items) →
  for_ items (node_step cover nodes_) acc = Ok acc' →
  (shape0 acc'.1, shape1 acc'.1, shape0 acc'.2, shape1 acc'.2)
  = (shape0 acc.1, shape1 acc.1, shape0 acc.2, shape1 acc.2)
  ∧ ∀ i, (i ∉ fst <$> items →
          tolist acc'.1 !! i = tolist acc.1 !! i
          ∧ tolist acc'.2 !! i = tolist acc.2 !! i)
       ∧ (∀ id, (i, id) ∈ items → updated acc acc' i id).
Proof.
  revert acc. induction items as [|[i0 id0] items IH]; intros acc Hnd Hfor.
  - injection Hfor as <-. split; [done|]. intros i. split; [done|].
    by intros id ?%elem_of_nil.
  - simpl in Hfor, Hnd. unbind Hfor as acc1 Hstep.
    apply NoDup_cons in Hnd as [Hi0 Hnd].
    apply node_step_Ok in Hstep
      as (mask & data_in_node & Hmask & Hrows & Hcols & Havg & Hpos & Hsizes).
    destruct (IH acc1 Hnd Hfor) as [Hshape Hrest].
    rewrite Hpos, Hsizes in Hshape. simpl in Hshape. split; [done|].
    intros i. destruct (Hrest i) as [Hother Hitems]. split.
    + rewrite fmap_cons, not_elem_of_cons. simpl. intros [Hne Hi].
      destruct (Hother Hi) as [-> ->]. rewrite Hpos, Hsizes. simpl.
      by rewrite !list_lookup_alter_ne by done.
    + intros id [[= -> ->]|Hin]%elem_of_cons.
      * destruct (Hother Hi0) as [H1 H2].
        exists mask, data_in_node. split_and!; try done.
        -- rewrite H1, Hpos. simpl. apply list_lookup_alter_eq.
        -- rewrite H2, Hsizes. simpl. apply list_lookup_alter_eq.
      * assert (i ≠ i0) as Hne.
        { intros ->. apply Hi0. apply list_elem_of_fmap. by exists (i0, id). }
        destruct (Hitems id Hin)
          as (mask' & din' & Hmask' & Hrows' & Hcols' & Havg' & H1 & H2).
        exists mask', din'. split_and!; try done.
        -- rewrite Havg', Hpos. done.
        -- rewrite H1, Hpos. simpl. by rewrite list_lookup_alter_ne.
        -- rewrite H2, Hsizes. simpl. by rewrite list_lookup_alter_ne.
Qed.
End NodeLoop.

Lemma elem_of_enumerate {A : Type} (l : list A) (i : nat) (x : A) :
  l !! i = Some x → (i, x) ∈ enumerate l.
Proof.
  intros Hi. unfold enumerate. apply list_elem_of_lookup. exists i.
  apply lookup_zip_with_Some. exists i, x. split_and!; [done| |done].
  apply lookup_seq. split; [done|]. by eapply lookup_lt_Some.
Qed.

Lemma fst_enumerate {A : Type} (l : list A) :
  fst <$> enumerate l = seq 0 (length l).
Proof. unfold enumerate. apply fst_zip. by rewrite length_seq. Qed.



(** The end-to-end example of the specification: two nodes, [{0,1,2,3}] at
    [(0.5, 0.5)] with size [4] and [{4,5}] at [(5, 5.5)] with size [2],
    and no edge. *)
Example map_two_cubes :
  match map Examples.raw Examples.two_cubes
            (Examples.one_cluster "euclidean") with
  | Ok (Some g) =>
      nodes g = [(0, [0; 1; 2; 3]); (1, [4; 5])]
      ∧ edges g = []
      ∧ node_keys g = [0; 1]
      ∧ tolist (node_positions g) = [[0.5; 0.5]; [5; 5.5]]%float
      ∧ tolist (node_sizes g) = [[4]; [2]]%float
  | _ => False
  end.
Proof. vm_compute. split_and!; reflexivity. Qed.

(** A node of the three points [2], [4] and [5] lies at the double
    nearest to [11/3] in both coordinates, which is [0x1.d555555555555p+1]
    and prints as [3.6666666666666665]; the node
    that a clusterer without [fit] makes of an empty hypercube holds no
    point and lies at [(nan, nan)]. *)
Example map_rounded_and_empty :
  match map Examples.raw (Cover.mk 6 Examples.points [[2; 4; 5]] 2 0%Q)
            (Examples.one_cluster "euclidean"),
        map Examples.raw Examples.with_empty_cube Examples.fitless with
  | Ok (Some g1), Ok (Some g2) =>
      tolist (node_positions g1)
      = [[0x1.d555555555555p+1; 0x1.d555555555555p+1]]%float
      ∧ nodes g2 = [(0, []); (1, [4; 5])]
      ∧ tolist (node_positions g2) = [[nan; nan]; [5; 5.5]]%float
      ∧ tolist (node_sizes g2) = [[0]; [2]]%float
  | _, _ => False
  end.
Proof. vm_compute. split_and!; reflexivity. Qed.

(* ===================================================================== *)
(** ** Edges *)
(* ===================================================================== *)

Lemma elem_of_combinations2 {A : Type} (l : list A) (a b : A) :
  (a, b) ∈ combinations2 l
  ↔ ∃ i j, i < j ∧ l !! i = Some a ∧ l !! j = Some b.
Proof.
  induction l as [|x l IH]; simpl.
  - rewrite elem_of_nil. split; [done | by intros (i & j & _ & ? & _)].
  - rewrite elem_of_app, list_elem_of_fmap, IH. split.
    + intros [(y & [= -> ->] & Hy)|(i & j & Hij & Hi & Hj)].
      * apply list_elem_of_lookup in Hy as [j Hj].
        exists 0, (S j). split_and!; [lia | done | done].
      * exists (S i), (S j). split_and!; [lia | done | done].
    + intros (i & j & Hij & Hi & Hj). destruct j as [|j]; [lia|].
      destruct i as [|i]; simpl in *.
      * left. exists b. injection Hi as ->. split; [done|].
        by eapply list_elem_of_lookup_2.
      * right. exists i, j. split_and!; [lia | done | done].
Qed.

Lemma elem_of_combinations2_seq (k a b : nat) :
  (a, b) ∈ combinations2 (seq 0 k) ↔ a < b < k.
Proof.
  rewrite elem_of_combinations2. split.
  - intros (i & j & Hij & Hi & Hj).
    apply lookup_seq in Hi as [-> _]. apply lookup_seq in Hj as [-> ?]. lia.
  - intros [Hab Hb]. exists a, b. split; [done|].
    split; apply lookup_seq; lia.
Qed.

Lemma add_label_present (k : nat) (labels : list nat) :
  k ∈ labels → add_label k labels = labels.
Proof. intros Hk. unfold add_label. by rewrite bool_decide_true. Qed.

Lemma elem_of_stack_index (df : DataFrame) (a b : nat) :
  (a, b) ∈ stack_index df
  ↔ a ∈ df_index df ∧ b ∈ df_columns df ∧ entry_present df a b.
Proof.
  unfold stack_index, entry_present.
  rewrite list_elem_of_filter, <- list_cprod_list_prod, list_elem_of_cprod.
  simpl. tauto.
Qed.

Section EdgeLoop.
Variable nodes_ : dict (list bool).

(** The nodes [a] and [b] have masks, and [np.any] of their conjunction
    holds. *)
Let linked (a b : nat) : Prop :=
  ∃ ma mb, dict_get nodes_ a = Ok ma ∧ dict_get nodes_ b = Ok mb
           ∧ np_any_and ma mb = true.

Lemma edge_loop_Ok (pairs : list (nat * nat)) (adj adj' : DataFrame) :
  (∀ a b, (a, b) ∈ pairs → a ∈ df_index adj ∧ b ∈ df_columns adj) →
  for_ pairs (edge_step nodes_) adj = Ok adj' →
  df_index adj' = df_index adj ∧ df_columns adj' = df_columns adj
  ∧ ∀ a b,
      (df_cells adj' !! (a, b) = Some 1%Q ∧ (a, b) ∈ pairs ∧ linked a b)
      ∨ (df_cells adj' !! (a, b) = df_cells adj !! (a, b)
         ∧ ¬ ((a, b) ∈ pairs ∧ linked a b)).
Proof.
  revert adj. induction pairs as [|[k1 k2] pairs IH]; intros adj Hlabels Hfor.
  - injection Hfor as <-. split_and!; try done. intros a b. right.
    split; [done|]. by intros [?%elem_of_nil _].
  - simpl in Hfor. unbind Hfor as adj1 Hstep. unfold edge_step in Hstep.
    unbind Hstep as m1 Hm1. unbind Hstep as m2 Hm2.
    destruct (Hlabels k1 k2) as [Hk1 Hk2]; [by left|].
    assert (Hadj1 : df_index adj1 = df_index adj
                    ∧ df_columns adj1 = df_columns adj).
    { destruct (np_any_and m1 m2); injection Hstep as <-; [|done].
      simpl. by rewrite !add_label_present. }
    destruct Hadj1 as [Hidx1 Hcol1].
    apply IH in Hfor as (Hidx & Hcol & Hcells).
    2:{ intros a b Hab. rewrite Hidx1, Hcol1. apply Hlabels. by right. }
    split_and!; [congruence..|]. intros a b.
    destruct (Hcells a b) as [(Hone & Hin & Hlink)|[Hsame Hnot]].
    { left. split_and!; [done | by right | done]. }
    destruct (np_any_and m1 m2) eqn:Hany; injection Hstep as <-.
    + destruct (decide ((k1, k2) = (a, b))) as [[= -> ->]|Hne].
      * left. split_and!; [|by left|by exists m1, m2].
        rewrite Hsame. simpl. apply lookup_insert_eq.
      * right. split.
        -- rewrite Hsame. simpl. by apply lookup_insert_ne.
        -- intros [[Heq|Hin]%elem_of_cons Hlink]; [congruence | tauto].
    + right. split; [done|].
      intros [[[= -> ->]|Hin]%elem_of_cons Hlink]; [|tauto].
      destruct Hlink as (ma & mb & Hma & Hmb & Htrue). congruence.
Qed.
End EdgeLoop.

(** C1, as the code has it.  In a graph that [map] returns, the table is
    indexed by the node ids; for node ids [a] and [b] with masks [ma] and
    [mb], the pair [(a, b)] is an edge, and the entry at [(a, b)] is
    present, exactly when [a < b] and the masks share a [True] position.
    So two distinct nodes are joined by an edge, in one of the two orders,
    exactly when their masks share a [True] position; the present entries
    are [1]. *)
Theorem edges_from_shared_points (data : PyData) (cover : Cover.t)
    (clusterer : Clusterer) (g : Graph) (reg : registry) :
  map data cover clusterer = Ok (Some g) →
  build_nodes data cover clusterer = Ok reg →
  dict_keys (nodes g) = dict_keys reg.1
  ∧ df_index (adj_matrix g) = dict_keys reg.1
  ∧ df_columns (adj_matrix g) = dict_keys reg.1
  ∧ ∀ a b ma mb,
      dict_get reg.1 a = Ok ma → dict_get reg.1 b = Ok mb →
      ((a, b) ∈ edges g ↔ a < b ∧ masks_share ma mb)
      ∧ (entry_present (adj_matrix g) a b ↔ a < b ∧ masks_share ma mb)
      ∧ (entry_present (adj_matrix g) a b →
         df_cells (adj_matrix g) !! (a, b) = Some 1%Q)
      ∧ (a ≠ b →
         ((a, b) ∈ edges g ∨ (b, a) ∈ edges g ↔ masks_share ma mb)).
Proof.
  intros (reg' & Hbuild' & _ & Hg)%map_Ok_Some Hbuild.
  rewrite Hbuild in Hbuild'. injection Hbuild' as <-.
  pose proof (build_nodes_registry _ _ _ _ Hbuild) as [Hkeys _].
  apply assemble_Ok in Hg as (_ & _ & Hdk & _ & Hedges & _ & Hloop); [|done].
  apply edge_loop_Ok in Hloop as (Hidx & Hcol & Hcells).
  2:{ intros a b Hab. simpl. rewrite Hkeys in Hab |- *.
      apply elem_of_combinations2_seq in Hab. rewrite !elem_of_seq. lia. }
  simpl in Hidx, Hcol. split_and!; [done..|].
  assert (Hkey : ∀ a ma, dict_get reg.1 a = Ok ma → a < length reg.1).
  { intros a ma Ha%dict_get_Ok.
    assert (a ∈ dict_keys reg.1) as Hin.
    { apply list_elem_of_fmap. by exists (a, ma). }
    rewrite Hkeys, elem_of_seq in Hin. lia. }
  assert (Hentry : ∀ a b ma mb,
            dict_get reg.1 a = Ok ma → dict_get reg.1 b = Ok mb →
            (entry_present (adj_matrix g) a b ↔ a < b ∧ masks_share ma mb)
            ∧ (entry_present (adj_matrix g) a b →
               df_cells (adj_matrix g) !! (a, b) = Some 1%Q)).
  { intros a b ma mb Ha Hb. unfold entry_present.
    destruct (Hcells a b) as [(Hone & Hin & Hlink)|[Hsame Hnot]].
    - rewrite Hone. split; [|done]. split; [intros _|by eexists].
      rewrite Hkeys in Hin. apply elem_of_combinations2_seq in Hin.
      split; [lia|]. destruct Hlink as (ma' & mb' & Ha' & Hb' & Hany).
      apply np_any_and_true. congruence.
    - simpl in Hsame. rewrite Hsame, lookup_empty.
      split; [|by intros [? [=]]]. split; [by intros [? [=]]|].
      intros [Hab Hshare]. destruct Hnot. split.
      + rewrite Hkeys. apply elem_of_combinations2_seq.
        split; [done|]. by eapply Hkey.
      + exists ma, mb. split_and!; [done..|]. by apply np_any_and_true. }
  assert (Hedge : ∀ a b ma mb,
            dict_get reg.1 a = Ok ma → dict_get reg.1 b = Ok mb →
            ((a, b) ∈ edges g ↔ a < b ∧ masks_share ma mb)).
  { intros a b ma mb Ha Hb. rewrite Hedges, elem_of_stack_index.
    rewrite Hidx, Hcol, Hkeys, !elem_of_seq.
    rewrite (proj1 (Hentry a b ma mb Ha Hb)).
    pose proof (Hkey _ _ Ha). pose proof (Hkey _ _ Hb).
    split; [tauto|]. intros [? ?]. split_and!; try done; lia. }
  intros a b ma mb Ha Hb.
  split_and!; [by apply Hedge | by apply Hentry | by eapply Hentry |].
  intros Hne. rewrite (Hedge a b ma mb Ha Hb), (Hedge b a mb ma Hb Ha).
  assert (masks_share mb ma ↔ masks_share ma mb) as ->.
  { unfold masks_share. split; intros (p & ? & ?); by exists p. }
  split; [tauto|]. intros Hshare.
  destruct (decide (a < b)); [left | right]; split; try done; lia.
Qed.

Lemma edges_from_shared_points_witness :
  ∃ g reg,
    map Examples.raw Examples.overlapping (Examples.one_cluster "euclidean")
      = Ok (Some g)
    ∧ build_nodes Examples.raw Examples.overlapping
        (Examples.one_cluster "euclidean") = Ok reg
    ∧ dict_keys (nodes g) = dict_keys reg.1
    ∧ df_index (adj_matrix g) = dict_keys reg.1
    ∧ df_columns (adj_matrix g) = dict_keys reg.1
    ∧ ∀ a b ma mb,
        dict_get reg.1 a = Ok ma → dict_get reg.1 b = Ok mb →
        ((a, b) ∈ edges g ↔ a < b ∧ masks_share ma mb)
        ∧ (entry_present (adj_matrix g) a b ↔ a < b ∧ masks_share ma mb)
        ∧ (entry_present (adj_matrix g) a b →
           df_cells (adj_matrix g) !! (a, b) = Some 1%Q)
        ∧ (a ≠ b →
           ((a, b) ∈ edges g ∨ (b, a) ∈ edges g ↔ masks_share ma mb)).
Proof.
  eexists. eexists.
  split; [vm_compute; reflexivity|]. split; [vm_compute; reflexivity|].
  apply (edges_from_shared_points Examples.raw Examples.overlapping
           (Examples.one_cluster "euclidean")); vm_compute; reflexivity.
Defined.

(** C1 fails as stated: the nodes [0] and [1] of this graph share the
    point [3]; the entry at [(0, 1)] is present and the entry at [(1, 0)]
    is not. *)
Lemma adjacency_not_symmetric :
  match map Examples.raw Examples.overlapping
            (Examples.one_cluster "euclidean") with
  | Ok (Some g) =>
      dict_get (nodes g) 0 = Ok [0; 1; 2; 3]
      ∧ dict_get (nodes g) 1 = Ok [3; 4; 5]
      ∧ entry_present (adj_matrix g) 0 1
      ∧ ¬ entry_present (adj_matrix g) 1 0
  | _ => False
  end.
Proof.
  vm_compute. split_and!; [reflexivity | reflexivity | by eexists |].
  by intros [? [=]].
Qed.

(* ===================================================================== *)
(** ** [map] raises nothing on the inputs it is meant for *)
(* ===================================================================== *)

Lemma Forall_compress {A : Type} (P : A → Prop) (mask : list bool)
    (xs : list A) :
  Forall P xs → Forall P (compress mask xs).
Proof.
  intros Hxs. apply Forall_forall. intros x Hx.
  destruct (proj1 (elem_of_compress _ _ _) Hx) as (j & _ & Hj).
  apply (proj1 (Forall_forall _ _) Hxs). by eapply list_elem_of_lookup_2.
Qed.

Lemma dict_get_key {V : Type} (d : dict V) (k : nat) :
  k ∈ dict_keys d → ∃ v, dict_get d k = Ok v.
Proof.
  unfold dict_keys. induction d as [|[k' v'] d IH]; simpl.
  - by intros ?%elem_of_nil.
  - intros Hk. case_bool_decide as Hkk'; [by eexists|].
    apply elem_of_cons in Hk as [->|Hk]; [done | by apply IH].
Qed.

Lemma add_node_in_range (data_vals : ndarray) (idx : list nat)
    (reg : registry) :
  Forall (λ i, i < shape0 data_vals) idx →
  ∃ reg', add_node data_vals idx reg = Ok reg'.
Proof.
  intros Hidx. unfold add_node.
  destruct (set_true_in_range _ _ Hidx) as [mask ->]. simpl. eauto.
Qed.

Section Returns.
Variable data : PyData.
Variable cover : Cover.t.
Variable clusterer : Clusterer.
Hypothesis Hinputs : map_inputs_ok data cover clusterer.

Let n : nat := shape0 (values data).

Lemma label_step_returns (cube_data_idx : list nat) (labels_ : list Z)
    (reg : registry) (label : Z) :
  length labels_ = length cube_data_idx →
  Forall (λ i, i < n) cube_data_idx →
  ∃ reg', label_step (np_array data) cube_data_idx labels_ reg label = Ok reg'.
Proof.
  intros Hlen Hidx. unfold label_step.
  destruct (bool_decide (label ≠ (-1)%Z)); [|eauto].
  unfold bool_index. rewrite length_fmap, bool_decide_true by done.
  cbn [mbind result_bind]. by apply add_node_in_range, Forall_compress.
Qed.

Lemma label_loop_returns (cube_data_idx : list nat) (labels_ ls : list Z)
    (reg : registry) :
  length labels_ = length cube_data_idx →
  Forall (λ i, i < n) cube_data_idx →
  ∃ reg', for_ ls (label_step (np_array data) cube_data_idx labels_) reg
          = Ok reg'.
Proof.
  intros Hlen Hidx. revert reg.
  induction ls as [|label ls IH]; intros reg; cbn [for_]; [eauto|].
  destruct (label_step_returns cube_data_idx labels_ reg label Hlen Hidx)
    as [reg1 ->].
  apply IH.
Qed.

Lemma cube_step_returns (cube : list nat) (reg : registry) :
  Forall (λ i, i < n) cube →
  ∃ reg', cube_step clusterer (np_array data) (np_arange n)
            (min_samples_of clusterer) reg cube = Ok reg'.
Proof.
  destruct Hinputs as (_ & _ & Hsquare & _ & Hfit). intros Hcube.
  unfold cube_step.
  assert (∃ cube_data,
            cube_data_of clusterer (np_array data) cube = Ok cube_data
            ∧ shape0 cube_data = length cube) as (cube_data & -> & Hshape).
  { unfold cube_data_of, np_array. rewrite take_rows_in_range by done.
    case_bool_decide as Hmetric; [by eexists|].
    simpl. unfold take_cols. simpl.
    rewrite <- Hsquare
      by (by destruct (decide (metric clusterer = "precomputed"%string))).
    apply forallb_lt in Hcube. fold n. rewrite Hcube. by eexists. }
  simpl. rewrite take_idx_arange by done. simpl.
  destruct (Qle_bool _ _); [|eauto].
  destruct (fit clusterer) as [fit_|] eqn:Hfit_.
  - destruct (Hfit fit_ cube_data Hfit_) as (labels_ & -> & Hlen). simpl.
    apply label_loop_returns; [congruence | done].
  - by apply add_node_in_range.
Qed.

Lemma build_nodes_returns : ∃ reg, build_nodes data cover clusterer = Ok reg.
Proof.
  destruct Hinputs as (Hrows & _ & Hsquare & Hrange & _).
  unfold build_nodes.
  rewrite (bool_decide_true (shape0 (values data) = Cover.n_points cover))
    by done. simpl.
  assert (Hassert : (if bool_decide (metric clusterer = "precomputed"%string)
                     then assert (bool_decide (shape0 (np_array data)
                                               = shape1 (np_array data)))
                     else Ok tt) = Ok tt).
  { case_bool_decide as Hmetric; [|done]. unfold np_array.
    by rewrite bool_decide_true by auto. }
  rewrite Hassert. simpl. clear Hassert.
  unfold Cover.in_range in Hrange. rewrite <- Hrows in Hrange.
  generalize (@nil (nat * list bool), 0).
  induction (Cover.hypercubes cover) as [|cube cubes IH]; intros reg;
    simpl; [eauto|].
  apply Forall_cons in Hrange as [Hcube Hrange].
  destruct (cube_step_returns cube reg Hcube) as [reg1 Hstep].
  fold n. rewrite Hstep. simpl. by apply IH.
Qed.

Variable nodes_ : dict (list bool).
Hypothesis Hmasks :
  Forall (λ node : nat * list bool, length node.2 = n) nodes_.

Lemma registry_get (id : nat) :
  id ∈ dict_keys nodes_ →
  ∃ mask, dict_get nodes_ id = Ok mask ∧ length mask = n.
Proof.
  intros [mask Hmask]%dict_get_key. exists mask. split; [done|].
  apply dict_get_Ok in Hmask.
  by apply (proj1 (Forall_forall _ _) Hmasks (id, mask)).
Qed.

Lemma node_loop_returns (items : list (nat * nat)) (acc : ndarray * ndarray) :
  0 < shape1 (Cover.data cover) →
  Forall (λ item : nat * nat,
            item.1 < length nodes_ ∧ item.2 ∈ dict_keys nodes_) items →
  shape0 acc.1 = length nodes_ → shape1 acc.1 = shape1 (Cover.data cover) →
  shape0 acc.2 = length nodes_ →
  ∃ acc', for_ items (node_step cover nodes_) acc = Ok acc'.
Proof.
  destruct Hinputs as (Hrows & Hpoints & _).
  intros Hcolumns Hitems. revert acc.
  induction Hitems as [|[i id] items [Hi Hid] _ IH];
    intros acc Hp0 Hp1 Hs0; simpl; [eauto|].
  simpl in Hi, Hid. destruct (registry_get id Hid) as (mask & -> & Hlen).
  simpl. unfold mask_rows.
  rewrite bool_decide_true by (unfold n in Hlen; congruence). simpl.
  unfold np_average_axis0. cbv zeta. rewrite length_mean_axis0. simpl.
  rewrite bool_decide_false by lia. simpl.
  unfold iadd_row, iadd_row_scalar.
  rewrite (bool_decide_true (i < shape0 acc.1)) by lia.
  rewrite (bool_decide_true (i < shape0 acc.2)) by lia.
  rewrite bool_decide_true by (by rewrite length_mean_axis0, Hp1).
  simpl. by apply IH.
Qed.

(** Without columns in [cover.data], the first average raises. *)
Lemma node_loop_no_columns (i id : nat) (items : list (nat * nat))
    (acc : ndarray * ndarray) :
  shape1 (Cover.data cover) = 0 → id ∈ dict_keys nodes_ →
  for_ ((i, id) :: items) (node_step cover nodes_) acc
  = Raise ZeroDivisionError.
Proof.
  destruct Hinputs as (Hrows & Hpoints & _).
  intros Hcolumns Hid. simpl.
  destruct (registry_get id Hid) as (mask & -> & Hlen).
  simpl. unfold mask_rows.
  rewrite bool_decide_true by (unfold n in Hlen; congruence). simpl.
  unfold np_average_axis0. cbv zeta. rewrite length_mean_axis0. simpl.
  by rewrite bool_decide_true.
Qed.

Lemma edge_loop_returns (pairs : list (nat * nat)) (adj : DataFrame) :
  Forall (λ pair : nat * nat,
            pair.1 ∈ dict_keys nodes_ ∧ pair.2 ∈ dict_keys nodes_) pairs →
  ∃ adj', for_ pairs (edge_step nodes_) adj = Ok adj'.
Proof.
  intros Hpairs. revert adj.
  induction Hpairs as [|[k1 k2] pairs [Hk1 Hk2] _ IH]; intros adj; simpl;
    [eauto|].
  simpl in Hk1, Hk2.
  destruct (registry_get k1 Hk1) as (m1 & -> & _).
  destruct (registry_get k2 Hk2) as (m2 & -> & _). simpl.
  destruct (np_any_and m1 m2); simpl; apply IH.
Qed.

Lemma point_ids_loop_returns (ids : list nat) (acc : list (nat * list nat)) :
  Forall (λ id, id ∈ dict_keys nodes_) ids →
  ∃ pairs, for_ ids (point_ids_step nodes_ (np_arange n)) acc = Ok pairs.
Proof.
  intros Hids. revert acc.
  induction Hids as [|id ids Hid _ IH]; intros acc; cbn [for_]; [eauto|].
  assert (∃ acc1, point_ids_step nodes_ (np_arange n) acc id = Ok acc1)
    as [acc1 ->]; [|apply IH].
  unfold point_ids_step.
  destruct (registry_get id Hid) as (mask & -> & Hlen).
  cbn [mbind result_bind]. unfold bool_index, np_arange.
  rewrite length_seq, bool_decide_true by done. simpl. eauto.
Qed.

Lemma assemble_returns :
  0 < shape1 (Cover.data cover) →
  ∃ g, assemble data cover clusterer nodes_ = Ok g.
Proof.
  intros Hcolumns. unfold assemble. fold n.
  destruct (node_loop_returns (enumerate (dict_keys nodes_))
              (np_zeros (length nodes_) (shape1 (Cover.data cover)),
               np_zeros (length nodes_) 1)) as [acc ->]; try done.
  { apply Forall_forall. intros [i id] Hin. simpl.
    apply list_elem_of_lookup in Hin as [j Hj]. unfold enumerate in Hj.
    apply lookup_zip_with_Some in Hj as (i' & id' & [= -> ->] & Hi & Hid).
    apply lookup_seq in Hi as [-> Hi]. unfold dict_keys in Hi.
    rewrite length_fmap in Hi. split; [done|].
    by eapply list_elem_of_lookup_2. }
  cbn [mbind result_bind].
  destruct (edge_loop_returns (combinations2 (dict_keys nodes_))
              (DataFrame_nan (dict_keys nodes_) (dict_keys nodes_)))
    as [adj ->].
  { apply Forall_forall. intros [a b] Hin. simpl.
    apply elem_of_combinations2 in Hin as (i & j & _ & Hi & Hj).
    split; by eapply list_elem_of_lookup_2. }
  cbn [mbind result_bind].
  destruct (point_ids_loop_returns (dict_keys nodes_) []) as [pairs ->];
    [by apply Forall_forall|].
  cbn [mbind result_bind]. eauto.
Qed.

Lemma assemble_no_columns :
  shape1 (Cover.data cover) = 0 → nodes_ ≠ [] →
  assemble data cover clusterer nodes_ = Raise ZeroDivisionError.
Proof.
  intros Hcolumns Hnodes. unfold assemble.
  assert (Hid : ∃ id ks, dict_keys nodes_ = id :: ks) .
  { destruct (dict_keys nodes_) as [|id ks] eqn:Hk; [|eauto].
    by apply fmap_nil_inv in Hk. }
  destruct Hid as (id & ks & Hk).
  replace (enumerate (dict_keys nodes_))
    with ((0, id) :: zip (seq 1 (length ks)) ks)
    by (by rewrite Hk).
  rewrite node_loop_no_columns; [done..|].
  rewrite Hk. by left.
Qed.
End Returns.

(** On well-formed inputs with at least one coordinate in [cover.data],
    [map] returns: the empty dictionary or a graph. *)
Lemma map_returns (data : PyData) (cover : Cover.t) (clusterer : Clusterer) :
  map_inputs_ok data cover clusterer →
  0 < shape1 (Cover.data cover) →
  ∃ r, map data cover clusterer = Ok r.
Proof.
  intros Hinputs Hcolumns. unfold map.
  destruct (build_nodes_returns data cover clusterer Hinputs) as [reg Hreg].
  rewrite Hreg. simpl. case_bool_decide; [eauto|].
  pose proof (build_nodes_registry _ _ _ _ Hreg) as [_ Hnodes].
  destruct (assemble_returns data cover clusterer Hinputs reg.1)
    as [g ->]; [|done|simpl; eauto].
  eapply Forall_impl; [exact Hnodes|]. by intros node [? _].
Qed.


(* ===================================================================== *)
(** ** More about the projection stage *)
(* ===================================================================== *)

Lemma for_app {A S : Type} (xs ys : list A) (body : S → A → result S) (s : S) :
  for_ (xs ++ ys) body s = for_ xs body s ≫= for_ ys body.
Proof.
  revert s. induction xs as [|x xs IH]; intros s; simpl; [done|].
  destruct (body s x) as [s'|e]; simpl; [apply IH | done].
Qed.

Lemma hstack_singleton (n : nat) (m : ndarray) :
  well_formed m → shape0 m = n → hstack n [m] = m.
Proof.
  intros [Hlen _] Hn. destruct m as [r c rows]. simpl in *. subst r.
  unfold hstack. simpl. rewrite Nat.add_0_r. f_equal; [done|].
  etrans; [|apply (fmap_nth_seq [] rows)]. rewrite Hn.
  apply list_fmap_ext. intros _ i _. by rewrite app_nil_r.
Qed.

Lemma hstack_snoc (n : nat) (outputs : list ndarray) (m : ndarray) :
  well_formed m → shape0 m = n →
  np_concatenate_axis1 (hstack n outputs) m = Ok (hstack n (outputs ++ [m])).
Proof.
  intros [Hlen _] Hn. unfold np_concatenate_axis1. simpl.
  rewrite bool_decide_true by done. f_equal. unfold hstack.
  rewrite sum_list_with_app. simpl. rewrite Nat.add_0_r. f_equal.
  assert (Hrows : tolist m = (λ i, nth i (tolist m) []) <$> seq 0 n).
  { by rewrite <- Hn, <- Hlen, fmap_nth_seq. }
  rewrite Hrows at 1.
  rewrite zip_with_fmap_l, zip_with_fmap_r, zip_with_diag.
  apply list_fmap_ext. intros _ i _.
  by rewrite fmap_app, concat_app; simpl; rewrite app_nil_r.
Qed.

Section Lenses.
Variable data : ndarray.
Variable n : nat.

(** The lenses [lenses] answer the arrays [outputs] on [data], each a
    well-formed array of [n] rows. *)
Let answers (lenses : list Lens) (outputs : list ndarray) : Prop :=
  Forall2 (λ l m, fit_transform l data = Ok m) lenses outputs
  ∧ Forall (λ m, well_formed m ∧ shape0 m = n) outputs.

Lemma filter_loop_Ok (lenses : list Lens) (outputs done : list ndarray) :
  answers lenses outputs → done ≠ [] →
  for_ lenses (filter_step data) (Some (hstack n done))
  = Ok (Some (hstack n (done ++ outputs))).
Proof.
  intros [Hfit Hwf]. revert done Hwf.
  induction Hfit as [|l m lenses outputs Hl _ IH]; intros done Hwf Hdone.
  - by rewrite app_nil_r.
  - apply Forall_cons in Hwf as [[Hm Hn] Hwf]. simpl. rewrite Hl. simpl.
    rewrite hstack_snoc by done. simpl.
    rewrite IH; [by rewrite <- app_assoc | done | by destruct done].
Qed.

Lemma filter_loop_start (lenses : list Lens) (outputs : list ndarray) :
  answers lenses outputs → lenses ≠ [] →
  for_ lenses (filter_step data) None = Ok (Some (hstack n outputs)).
Proof.
  intros [Hfit Hwf] Hne. destruct Hfit as [|l m lenses outputs Hl Hfit]; [done|].
  apply Forall_cons in Hwf as [[Hm Hn] Hwf]. simpl. rewrite Hl. simpl.
  pose proof (filter_loop_Ok lenses outputs [m] (conj Hfit Hwf)) as Hloop.
  rewrite (hstack_singleton n m Hm Hn) in Hloop. by apply Hloop.
Qed.

Lemma filter_loop_stops (pre post : list Lens) (outputs : list ndarray)
    (l : Lens) (e : exn) :
  answers pre outputs →
  filter_step data (match outputs with
                    | [] => None
                    | _ => Some (hstack n outputs)
                    end) l = Raise e →
  for_ (pre ++ l :: post) (filter_step data) None = Raise e.
Proof.
  intros Hpre Hl. rewrite for_app. destruct pre as [|l0 pre].
  - destruct Hpre as [Hfit _]. apply Forall2_nil_inv_l in Hfit as ->.
    cbn [for_ mbind result_bind]. by rewrite Hl.
  - rewrite (filter_loop_start (l0 :: pre) outputs) by done.
    destruct outputs as [|m outputs].
    { destruct Hpre as [Hfit _]. by apply Forall2_cons_nil_inv in Hfit. }
    cbn [for_ mbind result_bind]. by rewrite Hl.
Qed.
End Lenses.

(** X1.  With a non-empty list of lenses that all succeed on the data and
    answer arrays of [n] rows, [filter] returns these arrays side by side,
    in the order of the lenses: [n] rows, and as many columns as the
    outputs have together. *)
Theorem filter_concatenates (data : PyData) (lenses : list Lens)
    (outputs : list ndarray) (n : nat) :
  lenses ≠ [] →
  Forall2 (λ l m, fit_transform l (values data) = Ok m) lenses outputs →
  Forall (λ m, well_formed m ∧ shape0 m = n) outputs →
  filter (Some data) (Some lenses) = Ok (Some (hstack n outputs)).
Proof.
  intros Hne Hfit Hwf. unfold filter, np_array.
  rewrite bool_decide_true by (destruct lenses; [done | simpl; lia]).
  by apply filter_loop_start.
Qed.

Lemma filter_concatenates_witness :
  filter (Some Examples.raw)
    (Some [Examples.identity_lens; Examples.second_lens; Examples.identity_lens])
  = Ok (Some (hstack 6 [Examples.points; Cases.second_column; Examples.points])).
Proof.
  apply filter_concatenates.
  - discriminate.
  - repeat constructor.
  - repeat constructor.
Defined.

(** X2.  A lens that raises stops the projection: when the lenses before
    it succeed, [filter] raises the exception of that lens, whatever
    lenses follow. *)
Theorem filter_lens_failure (data : PyData) (pre post : list Lens)
    (outputs : list ndarray) (l : Lens) (e : exn) (n : nat) :
  Forall2 (λ l m, fit_transform l (values data) = Ok m) pre outputs →
  Forall (λ m, well_formed m ∧ shape0 m = n) outputs →
  fit_transform l (values data) = Raise e →
  filter (Some data) (Some (pre ++ l :: post)) = Raise e.
Proof.
  intros Hfit Hwf Hl. unfold filter, np_array.
  rewrite bool_decide_true by (rewrite length_app; simpl; lia).
  apply (filter_loop_stops _ n pre post outputs); [done|].
  unfold filter_step. rewrite Hl. by destruct outputs.
Qed.

Lemma filter_lens_failure_witness :
  filter (Some Examples.raw)
    (Some ([Examples.identity_lens] ++ Cases.failing_lens
           :: [Examples.second_lens]))
  = Raise (Exception "singular matrix"%string).
Proof.
  apply (filter_lens_failure Examples.raw [Examples.identity_lens]
           [Examples.second_lens] [Examples.points] Cases.failing_lens _ 6).
  - repeat constructor.
  - repeat constructor.
  - reflexivity.
Defined.

(** X3.  A lens whose output has another number of rows than the outputs
    before it makes [filter] raise [ValueError], at the concatenation. *)
Theorem filter_row_mismatch (data : PyData) (pre post : list Lens)
    (outputs : list ndarray) (l : Lens) (m : ndarray) (n : nat) :
  pre ≠ [] →
  Forall2 (λ l m, fit_transform l (values data) = Ok m) pre outputs →
  Forall (λ m, well_formed m ∧ shape0 m = n) outputs →
  fit_transform l (values data) = Ok m →
  shape0 m ≠ n →
  filter (Some data) (Some (pre ++ l :: post)) = Raise ValueError.
Proof.
  intros Hne Hfit Hwf Hl Hrows. unfold filter, np_array.
  rewrite bool_decide_true by (rewrite length_app; simpl; lia).
  apply (filter_loop_stops _ n pre post outputs); [done|].
  destruct outputs as [|m0 outputs].
  { apply Forall2_nil_inv_r in Hfit. done. }
  unfold filter_step. rewrite Hl. simpl. unfold np_concatenate_axis1. simpl.
  rewrite bool_decide_false by congruence. done.
Qed.

Lemma filter_row_mismatch_witness :
  filter (Some Examples.raw)
    (Some ([Examples.identity_lens] ++ Cases.truncating_lens :: []))
  = Raise ValueError.
Proof.
  apply (filter_row_mismatch Examples.raw [Examples.identity_lens] []
           [Examples.points] Cases.truncating_lens
           (NDArray 2 2 [[0; 0]; [0; 1]]%float) 6).
  - discriminate.
  - repeat constructor.
  - repeat constructor.
  - reflexivity.
  - simpl. lia.
Defined.

(* ===================================================================== *)
(** ** More about the nodes *)
(* ===================================================================== *)

Lemma elem_of_compress_arange (mask : list bool) (n p : nat) :
  length mask = n →
  p ∈ compress mask (np_arange n) ↔ mask !! p = Some true.
Proof.
  intros Hlen. unfold np_arange. rewrite elem_of_compress. split.
  - intros (j & Hj & Hp). by apply lookup_seq in Hp as [-> _].
  - intros Hp. exists p. split; [done|]. apply lookup_seq.
    split; [done|]. apply lookup_lt_Some in Hp. lia.
Qed.

Lemma compress_seq_increasing (mask : list bool) (start len : nat) :
  StronglySorted lt (compress mask (seq start len)).
Proof.
  revert start len. induction mask as [|b mask IH]; intros start [|len]; simpl;
    try constructor.
  destruct b; [|apply IH]. constructor; [apply IH|].
  apply Forall_forall. intros p Hp%compress_seq_lt. lia.
Qed.

Lemma dict_get_seq {V : Type} (d : dict V) (a : nat) (v : V) :
  dict_keys d = seq 0 (length d) →
  dict_get d a = Ok v ↔ d !! a = Some (a, v).
Proof.
  intros Hkeys. split.
  - intros Hget%dict_get_Ok. apply list_elem_of_lookup in Hget as [i Hi].
    assert (dict_keys d !! i = Some a) as Hk.
    { unfold dict_keys. by rewrite list_lookup_fmap, Hi. }
    rewrite Hkeys in Hk. apply lookup_seq in Hk as [-> _]. done.
  - apply dict_get_lookup. rewrite Hkeys. apply NoDup_seq.
Qed.

Lemma masks_disjoint_app (l1 l2 : dict (list bool)) :
  masks_disjoint l1 → masks_disjoint l2 →
  (∀ n1 n2, n1 ∈ l1 → n2 ∈ l2 → ¬ masks_share n1.2 n2.2) →
  masks_disjoint (l1 ++ l2).
Proof.
  intros H1 H2 H12 i j ni nj Hij Hi Hj.
  assert (Hsym : ∀ m1 m2, masks_share m1 m2 → masks_share m2 m1).
  { intros m1 m2 (p & ? & ?). by exists p. }
  apply lookup_app_Some in Hi as [Hi|[Hi1 Hi]];
    apply lookup_app_Some in Hj as [Hj|[Hj1 Hj]].
  - by eapply H1.
  - apply H12; by eapply list_elem_of_lookup_2.
  - intros Hs%Hsym. revert Hs. apply H12; by eapply list_elem_of_lookup_2.
  - eapply (H2 (i - length l1) (j - length l1)); [lia|done..].
Qed.

Section NewNodes.
Variable clusterer : Clusterer.
Variable data_vals : ndarray.
Variable min_cluster_samples : Q.

Let n : nat := shape0 data_vals.
Let step := cube_step clusterer data_vals (np_arange n) min_cluster_samples.

(** The nodes one hypercube adds: none unless the gate is passed, each
    within the hypercube, and no two sharing a point when the hypercube
    lists no index twice. *)
Lemma cube_step_new (cube : list nat) (nodes_ : dict (list bool)) (id : nat)
    (reg' : registry) :
  dict_keys nodes_ = seq 0 id →
  step (nodes_, id) cube = Ok reg' →
  ∃ new, extends nodes_ id reg' new
    ∧ (new ≠ [] → passes_gate min_cluster_samples cube = true)
    ∧ Forall (λ node : nat * list bool,
                ∀ p, node.2 !! p = Some true → p ∈ cube) new
    ∧ (NoDup cube → masks_disjoint new).
Proof.
  intros Hkeys Hstep. destruct (fit clusterer) as [fit_|] eqn:Hfit.
  - eapply cube_step_fit_Ok in Hstep as (new & Hext & _ & Hnew); [|done..].
    exists new. split; [done|].
    destruct (passes_gate min_cluster_samples cube);
      [|subst new; split_and!; [done|constructor|by intros _ [|?]]].
    set (labels_ := labels_of clusterer fit_ data_vals cube) in *.
    split_and!; [done| |].
    + eapply Forall2_Forall_l; [exact Hnew|].
      apply Forall_forall. intros label _ node (_ & _ & Hmask) p Hp.
      destruct (proj1 (Hmask p) Hp) as (j & Hj & _).
      by eapply list_elem_of_lookup_2.
    + intros Hset i j node_i node_j Hij Hi Hj (p & Hpi & Hpj).
      assert (Hdistinct : NoDup (base.filter (λ label, label ≠ (-1)%Z)
                                             (np_unique labels_))).
      { apply NoDup_filter, StronglySorted_lt_NoDup, np_unique_spec. }
      destruct (Forall2_lookup_l _ _ _ _ _ Hnew Hi) as (li & Hli & _ & _ & Hmi).
      destruct (Forall2_lookup_l _ _ _ _ _ Hnew Hj) as (lj & Hlj & _ & _ & Hmj).
      apply Hmi in Hpi as (a & Hcube_a & Hlabel_a).
      apply Hmj in Hpj as (b & Hcube_b & Hlabel_b).
      pose proof (NoDup_lookup _ _ _ _ Hset Hcube_a Hcube_b) as <-.
      assert (li = lj) by congruence. subst lj.
      apply Hij. exact (NoDup_lookup _ _ _ _ Hdistinct Hli Hlj).
  - eapply cube_step_nofit_Ok in Hstep as (new & Hext & _ & Hnew); [|done..].
    exists new. split; [done|].
    destruct (passes_gate min_cluster_samples cube);
      [|subst new; split_and!; [done|constructor|by intros _ [|?]]].
    destruct Hnew as (mask & -> & _ & Hmask). split_and!; [done| |].
    + constructor; [|constructor]. intros p Hp. by apply Hmask.
    + intros _ [|i] [|j] node_i node_j Hij Hi Hj; done.
Qed.

(** Every node the loop adds lies within a hypercube that passes the
    gate. *)
Lemma build_loop_within (cubes : list (list nat)) (nodes_ : dict (list bool))
    (id : nat) (reg' : registry) :
  dict_keys nodes_ = seq 0 id →
  for_ cubes step (nodes_, id) = Ok reg' →
  ∃ new, extends nodes_ id reg' new
    ∧ Forall (λ node : nat * list bool,
                ∃ cube, cube ∈ cubes
                  ∧ passes_gate min_cluster_samples cube = true
                  ∧ ∀ p, node.2 !! p = Some true → p ∈ cube) new.
Proof.
  revert nodes_ id. induction cubes as [|cube cubes IH];
    intros nodes_ id Hkeys Hfor.
  - injection Hfor as <-. exists []. split; [apply extends_nil | constructor].
  - simpl in Hfor. unbind Hfor as reg1 Hstep.
    apply cube_step_new in Hstep as (new1 & Hext1 & Hgate & Hnew1 & _); [|done].
    pose proof (extends_keys _ _ _ _ Hkeys Hext1) as Hkeys1.
    destruct reg1 as [nodes1 id1]. simpl in Hkeys1.
    apply IH in Hfor as (new2 & Hext2 & Hnew2); [|done].
    exists (new1 ++ new2). split; [by eapply extends_trans|].
    apply Forall_app. split.
    + apply Forall_forall. intros node Hnode. exists cube.
      split_and!; [by left| |].
      * apply Hgate. by intros ->; apply elem_of_nil in Hnode.
      * by apply (proj1 (Forall_forall _ _) Hnew1).
    + eapply Forall_impl; [exact Hnew2|]. intros node (c & Hc & ? & ?).
      exists c. split_and!; [by right|done..].
Qed.

(** Hypercubes that are sets and share no point give nodes that share no
    point. *)
Lemma build_loop_disjoint (cubes : list (list nat)) (nodes_ : dict (list bool))
    (id : nat) (reg' : registry) :
  dict_keys nodes_ = seq 0 id →
  Forall (λ cube : list nat, NoDup cube) cubes →
  cubes_disjoint cubes →
  masks_disjoint nodes_ →
  (∀ node p cube, node ∈ nodes_ → node.2 !! p = Some true →
                  cube ∈ cubes → p ∉ cube) →
  for_ cubes step (nodes_, id) = Ok reg' →
  masks_disjoint reg'.1.
Proof.
  revert nodes_ id. induction cubes as [|cube cubes IH];
    intros nodes_ id Hkeys Hsets Hcubes Hnodes Hold Hfor.
  - by injection Hfor as <-.
  - simpl in Hfor. unbind Hfor as reg1 Hstep.
    apply Forall_cons in Hsets as [Hset Hsets].
    apply cube_step_new in Hstep as (new & Hext & _ & Hnew & Hdisj); [|done].
    pose proof (extends_keys _ _ _ _ Hkeys Hext) as Hkeys1.
    destruct Hext as [-> _]. simpl in Hkeys1.
    eapply IH; [exact Hkeys1|done| | | |exact Hfor].
    + intros i j ci cj Hij Hi Hj p.
      refine (Hcubes (S i) (S j) ci cj _ Hi Hj p). lia.
    + apply masks_disjoint_app; [done|by apply Hdisj|].
      intros n1 n2 Hn1 Hn2 (p & Hp1 & Hp2).
      apply (Hold n1 p cube Hn1 Hp1); [by left|].
      by apply (proj1 (Forall_forall _ _) Hnew n2).
    + intros node p c [Hnode|Hnode]%elem_of_app Hp Hc.
      * apply (Hold node p c Hnode Hp). by right.
      * apply list_elem_of_lookup in Hc as [j Hj]. intros Hpc.
        refine (Hcubes 0 (S j) cube c _ eq_refl Hj p _); [lia|].
        split; [|done]. by apply (proj1 (Forall_forall _ _) Hnew node).
Qed.
End NewNodes.

(* ===================================================================== *)
(** ** More about the graph *)
(* ===================================================================== *)

(** The graph in terms of the registry it was assembled from. *)
Lemma graph_of_registry (data : PyData) (cover : Cover.t)
    (clusterer : Clusterer) (g : Graph) :
  map data cover clusterer = Ok (Some g) →
  ∃ reg, build_nodes data cover clusterer = Ok reg
    ∧ reg.1 ≠ []
    ∧ dict_keys reg.1 = seq 0 (length reg.1)
    ∧ Forall (λ node : nat * list bool,
                length node.2 = shape0 (values data)) reg.1
    ∧ nodes g = point_ids (shape0 (values data)) <$> reg.1
    ∧ edges g = stack_index (adj_matrix g)
    ∧ df_index (adj_matrix g) = seq 0 (length reg.1)
    ∧ df_columns (adj_matrix g) = seq 0 (length reg.1)
    ∧ ∀ a b, entry_present (adj_matrix g) a b
             ↔ a < b ∧ ∃ na nb, reg.1 !! a = Some na ∧ reg.1 !! b = Some nb
                               ∧ masks_share na.2 nb.2.
Proof.
  intros (reg & Hbuild & Hne & Hg)%map_Ok_Some. exists reg.
  pose proof (build_nodes_registry _ _ _ _ Hbuild) as [Hkeys Hnodes].
  apply assemble_Ok in Hg as (Hg & _ & _ & _ & Hedges & _ & Hloop); [|done].
  apply edge_loop_Ok in Hloop as (Hidx & Hcol & Hcells).
  2:{ intros a b Hab. simpl. rewrite Hkeys in Hab |- *.
      apply elem_of_combinations2_seq in Hab. rewrite !elem_of_seq. lia. }
  simpl in Hidx, Hcol. rewrite Hkeys in Hidx, Hcol.
  split_and!; try done.
  { eapply Forall_impl; [exact Hnodes|]. by intros node [? _]. }
  intros a b. unfold entry_present.
  destruct (Hcells a b) as [(Hone & Hin & Hlink)|[Hsame Hnot]].
  - rewrite Hone. split; [intros _|by eexists].
    rewrite Hkeys in Hin. apply elem_of_combinations2_seq in Hin.
    split; [lia|]. destruct Hlink as (ma & mb & Ha & Hb & Hany).
    exists (a, ma), (b, mb). split_and!.
    + by apply dict_get_seq.
    + by apply dict_get_seq.
    + by apply np_any_and_true.
  - simpl in Hsame. rewrite Hsame, lookup_empty.
    split; [by intros [? [=]]|].
    intros (Hab & [a' ma] & [b' mb] & Ha & Hb & Hshare). destruct Hnot.
    assert (a' = a) as ->.
    { assert (dict_keys reg.1 !! a = Some a') as Hk.
      { unfold dict_keys. by rewrite list_lookup_fmap, Ha. }
      rewrite Hkeys in Hk. by apply lookup_seq in Hk as [-> _]. }
    assert (b' = b) as ->.
    { assert (dict_keys reg.1 !! b = Some b') as Hk.
      { unfold dict_keys. by rewrite list_lookup_fmap, Hb. }
      rewrite Hkeys in Hk. by apply lookup_seq in Hk as [-> _]. }
    split.
    + rewrite Hkeys. apply elem_of_combinations2_seq. split; [done|].
      by eapply lookup_lt_Some.
    + exists ma, mb. split_and!; [by apply dict_get_seq..|].
      by apply np_any_and_true.
Qed.

Lemma graph_edge (g : Graph) (k : nat) (a b : nat) :
  edges g = stack_index (adj_matrix g) →
  df_index (adj_matrix g) = seq 0 k → df_columns (adj_matrix g) = seq 0 k →
  (entry_present (adj_matrix g) a b → a < b < k) →
  (a, b) ∈ edges g ↔ entry_present (adj_matrix g) a b.
Proof.
  intros -> Hidx Hcol Hlt. rewrite elem_of_stack_index, Hidx, Hcol.
  rewrite !elem_of_seq. split; [tauto|]. intros Hab.
  specialize (Hlt Hab). split_and!; [lia..|done].
Qed.

Lemma StronglySorted_app_2 {A : Type} (R : relation A) (l1 l2 : list A) :
  StronglySorted R l1 → StronglySorted R l2 →
  (∀ x y, x ∈ l1 → y ∈ l2 → R x y) →
  StronglySorted R (l1 ++ l2).
Proof.
  intros H1 H2 H12. induction H1 as [|x l1 Hl1 IH Hx]; simpl; [done|].
  constructor.
  - apply IH. intros y z Hy Hz. apply H12; [by right | done].
  - apply Forall_app. split; [done|]. apply Forall_forall. intros y Hy.
    apply H12; [by left | done].
Qed.

Lemma list_prod_increasing (l k : list nat) :
  StronglySorted lt l → StronglySorted lt k →
  StronglySorted pair_lt (list_prod l k).
Proof.
  intros Hl Hk. induction Hl as [|x l Hl IH Hx]; simpl; [constructor|].
  apply StronglySorted_app_2; [|done|].
  - clear -Hk. induction Hk as [|y k Hk IH Hy]; simpl; constructor; [done|].
    apply Forall_forall. intros [x' y'] Hin.
    apply list_elem_of_In, in_map_iff in Hin as (z & [= <- <-] & Hz).
    right. split; [done|].
    apply (proj1 (Forall_forall _ _) Hy). by apply list_elem_of_In.
  - intros [x1 y1] [x2 y2] H1 H2.
    apply list_elem_of_In, in_map_iff in H1 as (z & [= <- <-] & Hz).
    apply list_elem_of_In, in_prod_iff in H2 as [Hx2 _].
    left. simpl. apply (proj1 (Forall_forall _ _) Hx).
    by apply list_elem_of_In.
Qed.

Lemma StronglySorted_filter {A : Type} (R : relation A) (P : A → Prop)
    `{∀ x, Decision (P x)} (l : list A) :
  StronglySorted R l → StronglySorted R (base.filter P l).
Proof.
  induction 1 as [|x l Hl IH Hx]; [constructor|].
  rewrite filter_cons. destruct (decide (P x)); [|done].
  constructor; [done|]. apply Forall_forall.
  intros y [_ Hy]%list_elem_of_filter.
  by apply (proj1 (Forall_forall _ _) Hx).
Qed.

Lemma seq_increasing (start len : nat) : StronglySorted lt (seq start len).
Proof.
  revert start. induction len as [|len IH]; intros start; simpl;
    constructor; [apply IH|].
  apply Forall_forall. intros x Hx%elem_of_seq. lia.
Qed.

Lemma pair_lt_NoDup (l : list (nat * nat)) : StronglySorted pair_lt l → NoDup l.
Proof.
  induction 1 as [|x l Hl IH Hx]; constructor; [|done].
  intros Hin. apply (proj1 (Forall_forall _ _) Hx) in Hin.
  unfold pair_lt in Hin. lia.
Qed.

(** X4.  On inputs that respect the contracts (the raw data, the cover and
    the projected points agree on the number of points, the hypercubes hold
    point indices, a precomputed metric comes with a square matrix, [fit]
    answers one label per row), the loop over the hypercubes raises
    nothing, and [map] returns the empty dictionary when no node was
    created and a graph otherwise, provided the projected points have a
    coordinate.  With nodes and projected points without any column,
    [np.average] raises [ZeroDivisionError] for the first node. *)
Theorem map_succeeds (data : PyData) (cover : Cover.t) (clusterer : Clusterer) :
  map_inputs_ok data cover clusterer →
  ∃ reg, build_nodes data cover clusterer = Ok reg
    ∧ ((reg.1 = [] ∧ map data cover clusterer = Ok None)
       ∨ (reg.1 ≠ [] ∧ 0 < shape1 (Cover.data cover)
          ∧ ∃ g, map data cover clusterer = Ok (Some g))
       ∨ (reg.1 ≠ [] ∧ shape1 (Cover.data cover) = 0
          ∧ map data cover clusterer = Raise ZeroDivisionError)).
Proof.
  intros Hinputs.
  destruct (build_nodes_returns data cover clusterer Hinputs) as [reg Hreg].
  exists reg. split; [done|]. unfold map. rewrite Hreg.
  destruct reg as [nodes_ id]. simpl. destruct nodes_ as [|node nodes_].
  { left. done. }
  right. rewrite bool_decide_false by done.
  pose proof (build_nodes_registry _ _ _ _ Hreg) as [_ Hnodes].
  assert (Hmasks : Forall (λ node : nat * list bool,
                             length node.2 = shape0 (values data))
                          (node :: nodes_)).
  { eapply Forall_impl; [exact Hnodes|]. by intros ? [? _]. }
  destruct (decide (shape1 (Cover.data cover) = 0)) as [Hnone|Hsome].
  - right. split_and!; [done..|].
    by rewrite (assemble_no_columns data cover clusterer Hinputs
                  (node :: nodes_) Hmasks Hnone).
  - left. split_and!; [done|lia|].
    destruct (assemble_returns data cover clusterer Hinputs (node :: nodes_))
      as [g ->]; [done|lia|simpl; eauto].
Qed.

Lemma map_succeeds_witness :
  ∃ reg, build_nodes Examples.raw Examples.overlapping Examples.cycling = Ok reg
    ∧ ((reg.1 = []
        ∧ map Examples.raw Examples.overlapping Examples.cycling = Ok None)
       ∨ (reg.1 ≠ [] ∧ 0 < shape1 (Cover.data Examples.overlapping)
          ∧ ∃ g, map Examples.raw Examples.overlapping Examples.cycling
                 = Ok (Some g))
       ∨ (reg.1 ≠ [] ∧ shape1 (Cover.data Examples.overlapping) = 0
          ∧ map Examples.raw Examples.overlapping Examples.cycling
            = Raise ZeroDivisionError)).
Proof.
  apply map_succeeds. split_and!.
  - reflexivity.
  - reflexivity.
  - intros [=].
  - unfold Cover.in_range. simpl. repeat constructor.
  - intros fit_ a [= <-]. eexists. split; [reflexivity|].
    by rewrite length_fmap, length_seq.
Defined.

(** Projected points without a coordinate: the inputs respect the
    contracts, a node is created, and the average of its rows raises. *)
Example map_without_columns :
  map_inputs_ok Examples.raw Cases.flat_cover (Examples.one_cluster "euclidean")
  ∧ map Examples.raw Cases.flat_cover (Examples.one_cluster "euclidean")
    = Raise ZeroDivisionError.
Proof.
  split; [|vm_compute; reflexivity]. split_and!.
  - reflexivity.
  - reflexivity.
  - intros [=].
  - unfold Cover.in_range. simpl. repeat constructor.
  - intros fit_ a [= <-]. eexists. split; [reflexivity|].
    by rewrite length_replicate.
Qed.

Lemma build_loop_in_range (clusterer : Clusterer) (data_vals : ndarray)
    (data_idx : list nat) (min_cluster_samples : Q)
    (cubes : list (list nat)) (reg reg' : registry) :
  for_ cubes (cube_step clusterer data_vals data_idx min_cluster_samples) reg
    = Ok reg' →
  Forall (λ cube : list nat, Forall (λ i, i < shape0 data_vals) cube) cubes.
Proof.
  revert reg. induction cubes as [|cube cubes IH]; intros reg Hfor;
    [constructor|].
  simpl in Hfor. unbind Hfor as reg1 Hstep. constructor; [|by eapply IH].
  unfold cube_step in Hstep. unbind Hstep as cube_data Hdata.
  by apply cube_data_of_Ok in Hdata as [? _].
Qed.

(** X5.  What [map] needs in order to return: the row count of the raw
    data is the point count of the cover, a precomputed metric comes with a
    square matrix, every hypercube holds indices of rows only, and, when a
    graph is returned, the projected points have that many rows too. *)
Theorem map_requires (data : PyData) (cover : Cover.t) (clusterer : Clusterer)
    (r : option Graph) :
  map data cover clusterer = Ok r →
  shape0 (values data) = Cover.n_points cover
  ∧ (metric clusterer = "precomputed"%string →
     shape0 (values data) = shape1 (values data))
  ∧ Cover.in_range cover
  ∧ (is_Some r → shape0 (Cover.data cover) = Cover.n_points cover).
Proof.
  intros Hmap.
  assert (∃ reg, build_nodes data cover clusterer = Ok reg) as [reg Hbuild].
  { unfold map in Hmap. unbind Hmap as reg Hbuild. eauto. }
  pose proof Hbuild as (Hrows & Hsquare & Hfor)%build_nodes_Ok.
  apply build_loop_in_range in Hfor. unfold np_array in Hfor.
  split_and!; [done..| |].
  { unfold Cover.in_range. by rewrite <- Hrows. }
  intros [g ->].
  apply map_Ok_Some in Hmap as (reg' & Hbuild' & Hne & Hg).
  rewrite Hbuild in Hbuild'. injection Hbuild' as <-.
  pose proof (build_nodes_registry _ _ _ _ Hbuild) as [Hkeys Hnodes].
  apply assemble_Ok in Hg as (_ & _ & _ & _ & _ & Hloop & _); [|done].
  apply node_loop_Ok in Hloop as [_ Hrow];
    [|rewrite fst_enumerate; apply NoDup_seq].
  destruct reg as [[|[id mask] nodes_] next]; [done|]. simpl in *.
  destruct (Hrow 0) as [_ Hupd].
  destruct (Hupd id) as (mask' & din & Hget & Hsel & _).
  { apply elem_of_enumerate. done. }
  rewrite bool_decide_true in Hget by done. injection Hget as <-.
  unfold mask_rows in Hsel. case_bool_decide as Hlen; [|done].
  apply Forall_cons in Hnodes as [[Hmask _] _]. simpl in Hmask. congruence.
Qed.

Lemma map_requires_witness :
  ∃ r, map Examples.raw Examples.overlapping Examples.cycling = Ok r
    ∧ shape0 (values Examples.raw) = Cover.n_points Examples.overlapping
    ∧ (metric Examples.cycling = "precomputed"%string →
       shape0 (values Examples.raw) = shape1 (values Examples.raw))
    ∧ Cover.in_range Examples.overlapping
    ∧ (is_Some r →
       shape0 (Cover.data Examples.overlapping)
       = Cover.n_points Examples.overlapping).
Proof.
  eexists. split; [vm_compute; reflexivity|].
  apply (map_requires Examples.raw Examples.overlapping Examples.cycling).
  vm_compute. reflexivity.
Defined.

(** X6.  The point ids of every node of a returned graph are listed in
    increasing order, each once. *)
Theorem node_points_increasing (data : PyData) (cover : Cover.t)
    (clusterer : Clusterer) (g : Graph) :
  map data cover clusterer = Ok (Some g) →
  Forall (λ node : nat * list nat, StronglySorted lt node.2) (nodes g).
Proof.
  intros (reg & _ & _ & _ & _ & -> & _)%graph_of_registry.
  apply Forall_fmap, Forall_forall. intros node _. simpl.
  apply compress_seq_increasing.
Qed.

Lemma node_points_increasing_witness :
  ∃ g, map Examples.raw Examples.overlapping Examples.cycling = Ok (Some g)
    ∧ Forall (λ node : nat * list nat, StronglySorted lt node.2) (nodes g).
Proof.
  eexists. split; [vm_compute; reflexivity|].
  apply (node_points_increasing Examples.raw Examples.overlapping
           Examples.cycling).
  vm_compute. reflexivity.
Defined.

(** X7.  The edge list of a returned graph is in lexicographic order and
    without repetition; every edge joins two node ids, the smaller one
    first, so no node is joined to itself. *)
Theorem edges_increasing (data : PyData) (cover : Cover.t)
    (clusterer : Clusterer) (g : Graph) :
  map data cover clusterer = Ok (Some g) →
  StronglySorted pair_lt (edges g)
  ∧ NoDup (edges g)
  ∧ ∀ a b, (a, b) ∈ edges g → a < b < length (nodes g).
Proof.
  intros (reg & _ & _ & Hkeys & _ & Hg & Hedges & Hidx & Hcol & Hentry)
    %graph_of_registry.
  assert (Hsorted : StronglySorted pair_lt (edges g)).
  { rewrite Hedges. unfold stack_index. apply StronglySorted_filter.
    rewrite Hidx, Hcol. apply list_prod_increasing; apply seq_increasing. }
  split_and!; [done | by apply pair_lt_NoDup |].
  intros a b Hab. rewrite Hedges in Hab.
  apply elem_of_stack_index in Hab as (_ & Hb & Hpresent).
  apply Hentry in Hpresent as [Hlt _].
  rewrite Hcol, elem_of_seq in Hb. rewrite Hg, length_fmap. lia.
Qed.

Lemma edges_increasing_witness :
  ∃ g, map Examples.raw Examples.overlapping
           (Examples.one_cluster "euclidean") = Ok (Some g)
    ∧ StronglySorted pair_lt (edges g)
    ∧ NoDup (edges g)
    ∧ ∀ a b, (a, b) ∈ edges g → a < b < length (nodes g).
Proof.
  eexists. split; [vm_compute; reflexivity|].
  apply (edges_increasing Examples.raw Examples.overlapping
           (Examples.one_cluster "euclidean")).
  vm_compute. reflexivity.
Defined.

(** X8.  The edges of a returned graph can be read off its nodes: [(a, b)]
    is an edge exactly when [a < b] and the point lists of the nodes [a]
    and [b] have a point in common. *)
Theorem edges_from_point_lists (data : PyData) (cover : Cover.t)
    (clusterer : Clusterer) (g : Graph) :
  map data cover clusterer = Ok (Some g) →
  ∀ a b, (a, b) ∈ edges g
         ↔ a < b ∧ ∃ pa pb, dict_get (nodes g) a = Ok pa
                           ∧ dict_get (nodes g) b = Ok pb
                           ∧ ∃ p, p ∈ pa ∧ p ∈ pb.
Proof.
  intros (reg & _ & _ & Hkeys & Hmasks & Hg & Hedges & Hidx & Hcol & Hentry)
    %graph_of_registry a b.
  set (n := shape0 (values data)) in *.
  assert (Hgkeys : dict_keys (nodes g) = seq 0 (length (nodes g))).
  { rewrite Hg, length_fmap, <- Hkeys. unfold dict_keys.
    rewrite <- list_fmap_compose. by apply list_fmap_ext. }
  assert (Hnode : ∀ i pts, dict_get (nodes g) i = Ok pts
                           ↔ ∃ mask, reg.1 !! i = Some (i, mask)
                                     ∧ pts = compress mask (np_arange n)).
  { intros i pts. rewrite dict_get_seq by done.
    rewrite Hg, list_lookup_fmap. split.
    - destruct (reg.1 !! i) as [[i' mask]|] eqn:Hi; [|done].
      simpl. intros [= -> <-]. by exists mask.
    - intros (mask & Hi & Hpts). by rewrite Hi, Hpts. }
  assert (Hshare : ∀ i j mi mj,
            reg.1 !! i = Some (i, mi) → reg.1 !! j = Some (j, mj) →
            masks_share mi mj
            ↔ ∃ p, p ∈ compress mi (np_arange n)
                   ∧ p ∈ compress mj (np_arange n)).
  { intros i j mi mj Hi Hj.
    assert (length mi = n ∧ length mj = n) as [Hli Hlj].
    { split.
      - apply (proj1 (Forall_forall _ _) Hmasks (i, mi)).
        by eapply list_elem_of_lookup_2.
      - apply (proj1 (Forall_forall _ _) Hmasks (j, mj)).
        by eapply list_elem_of_lookup_2. }
    unfold masks_share. split; intros (p & Hp1 & Hp2); exists p.
    - by rewrite !elem_of_compress_arange.
    - by rewrite <- (elem_of_compress_arange mi n),
           <- (elem_of_compress_arange mj n). }
  rewrite (graph_edge g (length reg.1)); [|done..|].
  2:{ intros (Hab & _ & [b' mb] & _ & Hb & _)%Hentry.
      apply lookup_lt_Some in Hb. lia. }
  rewrite Hentry. split; intros [Hab Hrest]; (split; [done|]).
  - destruct Hrest as ([a' ma] & [b' mb] & Ha & Hb & Hs).
    assert (a' = a ∧ b' = b) as [-> ->].
    { split.
      - assert (dict_keys reg.1 !! a = Some a') as Hk
          by (unfold dict_keys; by rewrite list_lookup_fmap, Ha).
        rewrite Hkeys in Hk. by apply lookup_seq in Hk as [-> _].
      - assert (dict_keys reg.1 !! b = Some b') as Hk
          by (unfold dict_keys; by rewrite list_lookup_fmap, Hb).
        rewrite Hkeys in Hk. by apply lookup_seq in Hk as [-> _]. }
    exists (compress ma (np_arange n)), (compress mb (np_arange n)).
    split_and!; [apply Hnode; eauto..|]. by apply (Hshare a b).
  - destruct Hrest as (pa & pb & Ha & Hb & Hp).
    apply Hnode in Ha as (ma & Ha & Hpa). apply Hnode in Hb as (mb & Hb & Hpb).
    exists (a, ma), (b, mb). split_and!; [done..|].
    rewrite Hpa, Hpb in Hp. by apply (Hshare a b).
Qed.

Lemma edges_from_point_lists_witness :
  ∃ g, map Examples.raw Examples.overlapping
           (Examples.one_cluster "euclidean") = Ok (Some g)
    ∧ ∀ a b, (a, b) ∈ edges g
             ↔ a < b ∧ ∃ pa pb, dict_get (nodes g) a = Ok pa
                               ∧ dict_get (nodes g) b = Ok pb
                               ∧ ∃ p, p ∈ pa ∧ p ∈ pb.
Proof.
  eexists. split; [vm_compute; reflexivity|].
  apply (edges_from_point_lists Examples.raw Examples.overlapping
           (Examples.one_cluster "euclidean")).
  vm_compute. reflexivity.
Defined.

Section MoreLoops.
Variable clusterer : Clusterer.
Variable data_vals : ndarray.
Variable min_cluster_samples : Q.

Let n : nat := shape0 data_vals.
Let step := cube_step clusterer data_vals (np_arange n) min_cluster_samples.

(** Without [fit], the loop adds one node per hypercube that passes the
    gate: the hypercube itself. *)
Lemma build_loop_nofit (cubes : list (list nat)) (nodes_ : dict (list bool))
    (id : nat) (reg' : registry) :
  fit clusterer = None →
  dict_keys nodes_ = seq 0 id →
  for_ cubes step (nodes_, id) = Ok reg' →
  ∃ new, extends nodes_ id reg' new
    ∧ Forall2 (λ (node : nat * list bool) cube,
                 marks_exactly n node.2 (λ p, p ∈ cube))
              new (gated_cubes min_cluster_samples cubes).
Proof.
  intros Hfit. revert nodes_ id.
  induction cubes as [|cube cubes IH]; intros nodes_ id Hkeys Hfor.
  - injection Hfor as <-. exists []. split; [apply extends_nil | constructor].
  - simpl in Hfor. unbind Hfor as reg1 Hstep.
    eapply cube_step_nofit_Ok in Hstep as (new1 & Hext1 & _ & Hnew1); [|done..].
    pose proof (extends_keys _ _ _ _ Hkeys Hext1) as Hkeys1.
    destruct reg1 as [nodes1 id1]. simpl in Hkeys1.
    apply IH in Hfor as (new2 & Hext2 & Hnew2); [|done].
    exists (new1 ++ new2). split; [by eapply extends_trans|].
    unfold gated_cubes. rewrite filter_cons.
    destruct (passes_gate min_cluster_samples cube).
    + rewrite decide_True by done. destruct Hnew1 as (mask & -> & Hmask).
      by constructor.
    + rewrite decide_False by done. by subst new1.
Qed.

(** With [fit], a hypercube that passes the gate was fitted. *)
Lemma cube_step_fitted (fit_ : ndarray → result (list Z)) (cube : list nat)
    (nodes_ : dict (list bool)) (id : nat) (reg' : registry) :
  fit clusterer = Some fit_ →
  dict_keys nodes_ = seq 0 id →
  step (nodes_, id) cube = Ok reg' →
  passes_gate min_cluster_samples cube = true →
  fitted clusterer fit_ data_vals cube.
Proof.
  intros Hfit Hkeys Hstep Hgate. unfold step, cube_step in Hstep.
  unbind Hstep as cube_data Hdata.
  pose proof Hdata as [Hcube Hshape]%cube_data_of_Ok.
  unbind Hstep as cube_data_idx Hidx.
  apply take_idx_arange_Ok in Hidx as [_ ->].
  rewrite (gate_shape _ _ _ Hshape), Hgate, Hfit in Hstep.
  unbind Hstep as labels_ Hlabels.
  exists cube_data, labels_. split_and!; [done..|].
  apply label_loop_Ok in Hstep as (new & _ & Hnew); [|done].
  destruct (base.filter (λ label, label ≠ (-1)%Z) (np_unique labels_))
    as [|label rest] eqn:Hfilter.
  - left. apply Forall_forall. intros label Hlabel.
    destruct (decide (label = (-1)%Z)) as [|Hne]; [done|].
    assert (label ∈ base.filter (λ label, label ≠ (-1)%Z) (np_unique labels_))
      as Hin.
    { apply list_elem_of_filter. split; [done|]. by apply np_unique_spec. }
    rewrite Hfilter in Hin. by apply elem_of_nil in Hin.
  - right. by apply Forall2_cons_inv_r in Hnew as (? & ? & [? _] & _).
Qed.

Lemma build_loop_fitted (fit_ : ndarray → result (list Z))
    (cubes : list (list nat)) (nodes_ : dict (list bool)) (id : nat)
    (reg' : registry) :
  fit clusterer = Some fit_ →
  dict_keys nodes_ = seq 0 id →
  for_ cubes step (nodes_, id) = Ok reg' →
  Forall (fitted clusterer fit_ data_vals)
         (gated_cubes min_cluster_samples cubes).
Proof.
  intros Hfit. revert nodes_ id.
  induction cubes as [|cube cubes IH]; intros nodes_ id Hkeys Hfor.
  - constructor.
  - simpl in Hfor. unbind Hfor as reg1 Hstep.
    pose proof Hstep as Hstep'.
    eapply cube_step_fit_Ok in Hstep' as (new1 & Hext1 & _); [|done..].
    pose proof (extends_keys _ _ _ _ Hkeys Hext1) as Hkeys1.
    destruct reg1 as [nodes1 id1]. simpl in Hkeys1.
    unfold gated_cubes. rewrite filter_cons.
    destruct (decide (passes_gate min_cluster_samples cube = true))
      as [Hgate|Hgate]; [|exact (IH nodes1 id1 Hkeys1 Hfor)].
    constructor; [|exact (IH nodes1 id1 Hkeys1 Hfor)].
    exact (cube_step_fitted fit_ cube nodes_ id _ Hfit Hkeys Hstep Hgate).
Qed.
End MoreLoops.

(** X9.  With a clusterer that has no [fit], the nodes of a returned graph
    are the hypercubes that pass the minimum-sample gate, one node per
    such hypercube and in the cover's order: the node holds exactly the
    points of its hypercube. *)
Theorem nodes_without_fit (data : PyData) (cover : Cover.t)
    (clusterer : Clusterer) (g : Graph) :
  fit clusterer = None →
  map data cover clusterer = Ok (Some g) →
  let gated := gated_cubes (min_samples_of clusterer) (Cover.hypercubes cover) in
  dict_keys (nodes g) = seq 0 (length gated)
  ∧ Forall2 (λ (node : nat * list nat) cube, ∀ p, p ∈ node.2 ↔ p ∈ cube)
            (nodes g) gated.
Proof.
  intros Hfit (reg & Hbuild & _ & Hkeys & _ & Hg & _)%graph_of_registry gated.
  apply build_nodes_Ok in Hbuild as (_ & _ & Hfor).
  apply build_loop_nofit in Hfor as (new & [-> _] & Hnew); [|done..].
  simpl in *. fold gated in Hnew.
  assert (Hgkeys : dict_keys (nodes g) = dict_keys new).
  { rewrite Hg. unfold dict_keys. rewrite <- list_fmap_compose.
    by apply list_fmap_ext. }
  split.
  - rewrite Hgkeys, Hkeys. f_equal. by eapply Forall2_length.
  - rewrite Hg. apply Forall2_fmap_l.
    eapply Forall2_impl; [exact Hnew|]. intros node cube [Hlen Hmask] p.
    simpl. by rewrite elem_of_compress_arange, Hmask.
Qed.

Lemma nodes_without_fit_witness :
  ∃ g, fit Cases.whole_cubes = None
    ∧ map Examples.raw Cases.sparse_cover Cases.whole_cubes = Ok (Some g)
    ∧ dict_keys (nodes g) = seq 0 2
    ∧ Forall2 (λ (node : nat * list nat) cube, ∀ p, p ∈ node.2 ↔ p ∈ cube)
              (nodes g) [[0; 1; 2; 3]; [4; 5]].
Proof.
  eexists. split; [reflexivity|]. split; [vm_compute; reflexivity|].
  apply (nodes_without_fit Examples.raw Cases.sparse_cover Cases.whole_cubes);
    [reflexivity | vm_compute; reflexivity].
Defined.

(** X10.  Every node of a returned graph lies within one hypercube of the
    cover, and that hypercube passes the minimum-sample gate: a hypercube
    below the threshold contributes to no node. *)
Theorem nodes_within_gated_cubes (data : PyData) (cover : Cover.t)
    (clusterer : Clusterer) (g : Graph) :
  map data cover clusterer = Ok (Some g) →
  Forall (λ node : nat * list nat,
            ∃ cube, cube ∈ Cover.hypercubes cover
              ∧ passes_gate (min_samples_of clusterer) cube = true
              ∧ Forall (λ p, p ∈ cube) node.2) (nodes g).
Proof.
  intros (reg & Hbuild & _ & _ & Hmasks & -> & _)%graph_of_registry.
  apply build_nodes_Ok in Hbuild as (_ & _ & Hfor).
  apply build_loop_within in Hfor as (new & [-> _] & Hnew); [|done].
  simpl in *. apply Forall_fmap, Forall_forall. intros node Hnode. simpl.
  destruct (proj1 (Forall_forall _ _) Hnew node Hnode)
    as (cube & Hcube & Hgate & Hwithin).
  exists cube. split_and!; [done..|].
  apply Forall_forall. intros p Hp. apply Hwithin.
  apply (elem_of_compress_arange _ (shape0 (values data))); [|done].
  by apply (proj1 (Forall_forall _ _) Hmasks node).
Qed.

Lemma nodes_within_gated_cubes_witness :
  ∃ g, map Examples.raw Examples.overlapping Examples.cycling = Ok (Some g)
    ∧ Forall (λ node : nat * list nat,
                ∃ cube, cube ∈ Cover.hypercubes Examples.overlapping
                  ∧ passes_gate (min_samples_of Examples.cycling) cube = true
                  ∧ Forall (λ p, p ∈ cube) node.2) (nodes g).
Proof.
  eexists. split; [vm_compute; reflexivity|].
  apply (nodes_within_gated_cubes Examples.raw Examples.overlapping
           Examples.cycling).
  vm_compute. reflexivity.
Defined.

(** X11.  One hypercube (a set of point indices) that passes the gate,
    with a clusterer that can [fit]: a point of the hypercube is in one of
    the nodes created from it exactly when its label is not [-1].  The
    unclustered points are dropped and all the others are kept. *)
Theorem noise_points_dropped (clusterer : Clusterer)
    (fit_ : ndarray → result (list Z)) (data_vals : ndarray)
    (min_cluster_samples : Q) (cube : list nat)
    (nodes_ : dict (list bool)) (id : nat) (reg' : registry) :
  fit clusterer = Some fit_ →
  NoDup cube →
  dict_keys nodes_ = seq 0 id →
  passes_gate min_cluster_samples cube = true →
  cube_step clusterer data_vals (np_arange (shape0 data_vals))
            min_cluster_samples (nodes_, id) cube = Ok reg' →
  ∃ new, extends nodes_ id reg' new
    ∧ ∀ j p label,
        cube !! j = Some p →
        labels_of clusterer fit_ data_vals cube !! j = Some label →
        (∃ node, node ∈ new ∧ node.2 !! p = Some true) ↔ label ≠ (-1)%Z.
Proof.
  intros Hfit Hset Hkeys Hgate Hstep.
  eapply cube_step_fit_Ok in Hstep as (new & Hext & _ & Hnew); [|done..].
  rewrite Hgate in Hnew. exists new. split; [done|].
  set (labels_ := labels_of clusterer fit_ data_vals cube) in *.
  intros j p label Hp Hlabel. split.
  - intros (node & [i Hi]%list_elem_of_lookup & Hmarked).
    destruct (Forall2_lookup_l _ _ _ _ _ Hnew Hi) as (li & Hli & _ & _ & Hm).
    destruct (proj1 (Hm p) Hmarked) as (a & Hcube_a & Hlabel_a).
    pose proof (NoDup_lookup _ _ _ _ Hset Hp Hcube_a) as <-.
    assert (li = label) as -> by congruence.
    apply list_elem_of_lookup_2, list_elem_of_filter in Hli. tauto.
  - intros Hne.
    assert (label ∈ base.filter (λ label, label ≠ (-1)%Z) (np_unique labels_))
      as [i Hi]%list_elem_of_lookup.
    { apply list_elem_of_filter. split; [done|]. apply np_unique_spec.
      by eapply list_elem_of_lookup_2. }
    destruct (Forall2_lookup_r _ _ _ _ _ Hnew Hi) as (node & Hnode & _ & _ & Hm).
    exists node. split; [by eapply list_elem_of_lookup_2|].
    apply Hm. by exists j.
Qed.

Lemma noise_points_dropped_witness :
  ∃ new, extends [] 0
           ([(0, [true; false; false; true; false; false]);
             (1, [false; true; false; false; false; false])], 2) new
    ∧ ∀ j p label,
        [0; 1; 2; 3] !! j = Some p →
        labels_of Examples.cycling Examples.cycling_fit Examples.points
                  [0; 1; 2; 3] !! j = Some label →
        (∃ node, node ∈ new ∧ node.2 !! p = Some true) ↔ label ≠ (-1)%Z.
Proof.
  refine (noise_points_dropped Examples.cycling Examples.cycling_fit
            Examples.points 1%Q [0; 1; 2; 3] [] 0 _ eq_refl _ eq_refl
            eq_refl eq_refl).
  apply NoDup_ListNoDup. repeat constructor; simpl; lia.
Defined.

(** X12.  When the hypercubes of the cover are sets that share no point,
    no two nodes share a point, and a returned graph has no edge: its edge
    list is empty and its adjacency table has no entry. *)
Theorem disjoint_cover_no_edges (data : PyData) (cover : Cover.t)
    (clusterer : Clusterer) (g : Graph) :
  map data cover clusterer = Ok (Some g) →
  Forall (λ cube : list nat, NoDup cube) (Cover.hypercubes cover) →
  cubes_disjoint (Cover.hypercubes cover) →
  edges g = [] ∧ ∀ a b, ¬ entry_present (adj_matrix g) a b.
Proof.
  intros (reg & Hbuild & _ & Hkeys & _ & _ & Hedges & Hidx & Hcol & Hentry)
    %graph_of_registry Hsets Hcubes.
  apply build_nodes_Ok in Hbuild as (_ & _ & Hfor).
  assert (Hnil : masks_disjoint []).
  { intros i j node_i node_j _ Hi. by rewrite lookup_nil in Hi. }
  assert (Hold : ∀ (node : nat * list bool) p (cube : list nat),
            node ∈ @nil (nat * list bool) → node.2 !! p = Some true →
            cube ∈ Cover.hypercubes cover → p ∉ cube).
  { intros node p cube Hnode. by apply elem_of_nil in Hnode. }
  pose proof (build_loop_disjoint _ _ _ _ [] 0 reg eq_refl Hsets Hcubes
                Hnil Hold Hfor) as Hdisj.
  clear Hfor. rename Hdisj into Hfor.
  assert (Hnone : ∀ a b, ¬ entry_present (adj_matrix g) a b).
  { intros a b (Hab & na & nb & Ha & Hb & Hshare)%Hentry.
    apply (Hfor a b na nb); [lia|done..]. }
  split; [|done]. apply elem_of_nil_inv. intros [a b] Hab.
  rewrite Hedges in Hab. apply elem_of_stack_index in Hab as (_ & _ & Hab).
  by apply (Hnone a b).
Qed.

Lemma disjoint_cover_no_edges_witness :
  ∃ g, map Examples.raw Examples.two_cubes (Examples.one_cluster "euclidean")
       = Ok (Some g)
    ∧ edges g = [] ∧ ∀ a b, ¬ entry_present (adj_matrix g) a b.
Proof.
  eexists. split; [vm_compute; reflexivity|].
  apply (disjoint_cover_no_edges Examples.raw Examples.two_cubes
           (Examples.one_cluster "euclidean")).
  - vm_compute. reflexivity.
  - simpl.
    repeat (apply Forall_cons; split;
            [apply NoDup_ListNoDup; repeat constructor; simpl; lia|]).
    constructor.
  - intros [|[|i]] [|[|j]] ci cj Hij [= <-] [= <-] p [Hi Hj]; try done;
      apply list_elem_of_In in Hi, Hj; simpl in Hi, Hj; lia.
Defined.

(** X13.  When [map] returns with a clusterer that can [fit], [fit] was
    called without raising on the subset of every hypercube that passes
    the gate, and it answered one label per point of the hypercube, unless
    all its labels were [-1]. *)
Theorem map_fitted (data : PyData) (cover : Cover.t) (clusterer : Clusterer)
    (fit_ : ndarray → result (list Z)) (r : option Graph) :
  fit clusterer = Some fit_ →
  map data cover clusterer = Ok r →
  Forall (fitted clusterer fit_ (np_array data))
         (gated_cubes (min_samples_of clusterer) (Cover.hypercubes cover)).
Proof.
  intros Hfit Hmap.
  assert (∃ reg, build_nodes data cover clusterer = Ok reg) as [reg Hbuild].
  { unfold map in Hmap. unbind Hmap as reg Hbuild. eauto. }
  apply build_nodes_Ok in Hbuild as (_ & _ & Hfor).
  exact (build_loop_fitted clusterer (np_array data) _ fit_ _ [] 0 reg
           Hfit eq_refl Hfor).
Qed.

Lemma map_fitted_witness :
  Forall (fitted Examples.cycling Examples.cycling_fit (np_array Examples.raw))
         (gated_cubes (min_samples_of Examples.cycling)
                      (Cover.hypercubes Examples.overlapping)).
Proof.
  refine (map_fitted Examples.raw Examples.overlapping Examples.cycling
            Examples.cycling_fit _ eq_refl _).
  vm_compute. reflexivity.
Defined.

Lemma for_ext {A S : Type} (xs : list A) (body1 body2 : S → A → result S)
    (s : S) :
  (∀ s x, body1 s x = body2 s x) → for_ xs body1 s = for_ xs body2 s.
Proof.
  intros Hbody. revert s. induction xs as [|x xs IH]; intros s; simpl; [done|].
  rewrite Hbody. destruct (body2 s x); simpl; [apply IH | done].
Qed.

Lemma cube_step_shape (clusterer : Clusterer) (dv1 dv2 : ndarray)
    (data_idx : list nat) (min_cluster_samples : Q) (reg : registry)
    (cube : list nat) :
  fit clusterer = None →
  shape0 dv1 = shape0 dv2 → shape1 dv1 = shape1 dv2 →
  cube_step clusterer dv1 data_idx min_cluster_samples reg cube
  = cube_step clusterer dv2 data_idx min_cluster_samples reg cube.
Proof.
  intros Hfit Hrows Hcols.
  unfold cube_step, cube_data_of, take_rows, add_node.
  rewrite Hfit, Hrows. case_bool_decide.
  - destruct (forallb _ cube); simpl; [|done].
    by destruct (take_idx 0 data_idx cube).
  - destruct (forallb _ cube); simpl; [|done].
    unfold take_cols. simpl. rewrite Hcols.
    destruct (forallb _ cube); simpl; [|done].
    by destruct (take_idx 0 data_idx cube).
Qed.

(** X18.  With a clusterer that has no [fit], [map] uses the raw data for
    its shape and its row labels only: two data sets of the same shape and
    with the same row labels give the same outcome, whatever their
    values. *)
Theorem raw_values_unused_without_fit (data1 data2 : PyData)
    (cover : Cover.t) (clusterer : Clusterer) :
  fit clusterer = None →
  shape0 (values data1) = shape0 (values data2) →
  shape1 (values data1) = shape1 (values data2) →
  index data1 = index data2 →
  map data1 cover clusterer = map data2 cover clusterer.
Proof.
  intros Hfit Hrows Hcols Hindex.
  assert (Hbuild : build_nodes data1 cover clusterer
                   = build_nodes data2 cover clusterer).
  { unfold build_nodes, np_array. rewrite Hrows, Hcols.
    destruct (assert (bool_decide (shape0 (values data2)
                                   = Cover.n_points cover))) as [[]|e];
      simpl; [|done].
    destruct (bool_decide (metric clusterer = "precomputed"%string));
      [destruct (assert (bool_decide (shape0 (values data2)
                                      = shape1 (values data2)))) as [[]|e]|];
      simpl; try done;
      apply for_ext; intros reg cube; by apply cube_step_shape. }
  unfold map. rewrite Hbuild.
  destruct (build_nodes data2 cover clusterer) as [reg|e]; simpl; [|done].
  case_bool_decide; [done|].
  assert (assemble data1 cover clusterer reg.1
          = assemble data2 cover clusterer reg.1) as ->; [|done].
  unfold assemble, sample_names_of. by rewrite Hrows, Hindex.
Qed.

Lemma raw_values_unused_without_fit_witness :
  map Examples.raw Cases.sparse_cover Cases.whole_cubes
  = map (mkPyData Cases.other_points None) Cases.sparse_cover
        Cases.whole_cubes.
Proof.
  apply raw_values_unused_without_fit; reflexivity.
Defined.

(* ===================================================================== *)
(** ** The helpers of [tmap/api/general.py] *)
(* ===================================================================== *)

Lemma length_string_of_list_ascii (cs : list Ascii.ascii) :
  String.length (String.string_of_list_ascii cs) = length cs.
Proof. induction cs as [|c cs IH]; simpl; [done | by rewrite IH]. Qed.

Section RandomString.
Context {G : Type}.
Variable randbelow : nat → G → nat * G.
Hypothesis randbelow_lt : ∀ bound g, 0 < bound → (randbelow bound g).1 < bound.

Lemma choices_Ok (letters : list Ascii.ascii) (k : nat) (g : G) :
  letters ≠ [] →
  ∃ cs g', General.choices randbelow letters k g = (Ok cs, g')
    ∧ length cs = k ∧ Forall (λ c, c ∈ letters) cs.
Proof.
  intros Hletters. revert g. induction k as [|k IH]; intros g; simpl.
  { exists [], g. by repeat constructor. }
  assert (∃ c g1, General.choice randbelow letters g = (Ok c, g1)
                  ∧ c ∈ letters) as (c & g1 & -> & Hc).
  { unfold General.choice. destruct letters as [|c0 letters]; [done|].
    pose proof (randbelow_lt (length (c0 :: letters)) g) as Hlt.
    destruct (randbelow (length (c0 :: letters)) g) as [i g1]. simpl in Hlt.
    destruct (lookup_lt_is_Some_2 (c0 :: letters) i) as [c Hi];
      [simpl; lia|].
    exists c, g1. rewrite Hi. split; [done|].
    by eapply list_elem_of_lookup_2. }
  destruct (IH g1) as (cs & g2 & -> & Hlen & Hcs).
  exists (c :: cs), g2. split_and!; [done | by simpl; rewrite Hlen |].
  by constructor.
Qed.
End RandomString.

(** X14.  Whatever the generator draws (below the bound it is given),
    [randomString] raises nothing, and the string it returns has exactly
    [stringLength] characters ([0] for a negative length), each of them an
    ASCII letter or a digit. *)
Theorem randomString_alphanumeric {G : Type} (randbelow : nat → G → nat * G)
    (stringLength : Z) (g : G) :
  (∀ bound g, 0 < bound → (randbelow bound g).1 < bound) →
  ∃ s g', General.randomString randbelow stringLength g = (Ok s, g')
    ∧ String.length s = Z.to_nat stringLength
    ∧ Forall (λ c, c ∈ String.list_ascii_of_string
                        (General.ascii_letters +:+ General.digits))
             (String.list_ascii_of_string s).
Proof.
  intros Hlt. unfold General.randomString.
  destruct (choices_Ok randbelow Hlt
              (String.list_ascii_of_string
                 (General.ascii_letters +:+ General.digits))
              (Z.to_nat stringLength) g) as (cs & g' & -> & Hlen & Hcs);
    [done|].
  exists (String.string_of_list_ascii cs), g'. split_and!; [done| |].
  - by rewrite length_string_of_list_ascii.
  - by rewrite String.list_ascii_of_string_of_list_ascii.
Qed.

Lemma randomString_alphanumeric_witness :
  ∃ s g', General.randomString Cases.counter_randbelow 10 3 = (Ok s, g')
    ∧ String.length s = Z.to_nat 10
    ∧ Forall (λ c, c ∈ String.list_ascii_of_string
                        (General.ascii_letters +:+ General.digits))
             (String.list_ascii_of_string s).
Proof.
  apply randomString_alphanumeric. intros bound g Hbound. simpl.
  apply Nat.mod_upper_bound. lia.
Defined.

Lemma string_length_app (a b : string) :
  String.length (a +:+ b) = String.length a + String.length b.
Proof. induction a as [|c a IH]; simpl; [done | by rewrite IH]. Qed.

Lemma string_app_inj_r (a b r : string) : a +:+ r = b +:+ r → a = b.
Proof.
  revert b. induction a as [|c a IH]; intros [|c' b] Heq; simpl in Heq.
  - done.
  - apply (f_equal String.length) in Heq.
    rewrite !string_length_app in Heq. simpl in Heq. lia.
  - apply (f_equal String.length) in Heq.
    rewrite !string_length_app in Heq. simpl in Heq. lia.
  - injection Heq as -> Heq. f_equal. by apply IH.
Qed.

Lemma multidf_path_inj (prefix suffix name1 name2 : string) :
  General.multidf_path prefix suffix name1
  = General.multidf_path prefix suffix name2 →
  name1 = name2.
Proof.
  unfold General.multidf_path. intros Heq.
  apply String.app_inj in Heq. simpl in Heq. injection Heq as Heq.
  change (("" +:+ ?x)%string) with x in Heq.
  apply string_app_inj_r in Heq. by apply string_app_inj_r in Heq.
Qed.

Lemma string_app_assoc (a b c : string) : (a +:+ b) +:+ c = a +:+ (b +:+ c).
Proof.
  induction a as [|x a IH]; [done|].
  change (String x ((a +:+ b) +:+ c) = String x (a +:+ (b +:+ c))).
  by rewrite IH.
Qed.

Lemma multidf_path_eq (prefix suffix name : string) :
  General.multidf_path prefix suffix name
  = prefix +:+ "_" +:+ name +:+ "_" +:+ suffix +:+ ".csv".
Proof.
  unfold General.multidf_path. by rewrite (string_app_assoc name).
Qed.

Section WriteData.
Context {Frame Cols : Type}.
Variable loc_cols : Frame → Cols → result Frame.
Variable writable : string → bool.
Variable data : Frame.
Variables prefix suffix : string.

Let written := General.write_cols loc_cols writable data prefix suffix.

Lemma write_cols_untouched (cols : list (string * Cols))
    (files : gmap string Frame) (path : string) :
  (∀ name, name ∈ cols.*1 → General.multidf_path prefix suffix name ≠ path) →
  (written cols files).2 !! path = files !! path.
Proof.
  unfold written. revert files.
  induction cols as [|[name col] cols IH]; intros files Hpath; simpl; [done|].
  destruct (loc_cols data col) as [subdata|e]; [|done].
  unfold General.to_csv.
  destruct (writable (General.multidf_path prefix suffix name)); [|done].
  rewrite IH.
  - apply lookup_insert_ne. apply Hpath. by left.
  - intros name' Hname'. apply Hpath. by right.
Qed.

Lemma write_cols_Ok (cols : list (string * Cols)) (subs : list Frame)
    (files : gmap string Frame) :
  Forall2 (λ item sub, loc_cols data item.2 = Ok sub) cols subs →
  (∀ name, name ∈ cols.*1 →
     writable (General.multidf_path prefix suffix name) = true) →
  NoDup cols.*1 →
  (written cols files).1 = Ok tt
  ∧ ∀ i name col sub,
      cols !! i = Some (name, col) → subs !! i = Some sub →
      (written cols files).2 !! General.multidf_path prefix suffix name
      = Some sub.
Proof.
  intros Hsel. unfold written. revert files.
  induction Hsel as [|[name0 col0] sub0 cols subs Hsub _ IH];
    intros files Hopen Hnames; simpl; [done|].
  simpl in Hsub. rewrite Hsub. unfold General.to_csv.
  rewrite (Hopen name0) by (by left).
  apply NoDup_cons in Hnames as [Hname0 Hnames].
  destruct (IH (<[General.multidf_path prefix suffix name0 := sub0]> files))
    as [Hok Hfiles]; [by intros name' Hname'; apply Hopen; right | done |].
  split; [done|]. intros [|i] name col sub Hi Hs; simpl in Hi, Hs.
  - injection Hi as -> ->. injection Hs as ->.
    rewrite (write_cols_untouched cols).
    + apply lookup_insert_eq.
    + intros name' Hname' Heq%multidf_path_inj. by subst.
  - by eapply Hfiles.
Qed.

Lemma write_cols_stops (pre post : list (string * Cols)) (subs : list Frame)
    (name : string) (col : Cols) (e : exn) (files : gmap string Frame) :
  Forall2 (λ item sub, loc_cols data item.2 = Ok sub) pre subs →
  (∀ name0, name0 ∈ pre.*1 →
     writable (General.multidf_path prefix suffix name0) = true) →
  loc_cols data col = Raise e
  ∨ ((∃ sub, loc_cols data col = Ok sub)
     ∧ writable (General.multidf_path prefix suffix name) = false
     ∧ e = OSError) →
  written (pre ++ (name, col) :: post) files
  = (Raise e, (written pre files).2)
  ∧ (written pre files).1 = Ok tt.
Proof.
  intros Hsel. unfold written. revert files.
  induction Hsel as [|[name0 col0] sub0 pre subs Hsub _ IH];
    intros files Hopen Hcol; simpl.
  - destruct Hcol as [->|([sub ->] & Hclosed & ->)]; [done|].
    unfold General.to_csv. by rewrite Hclosed.
  - simpl in Hsub. rewrite Hsub. unfold General.to_csv.
    rewrite (Hopen name0) by (by left).
    apply IH; [|done]. intros name' Hname'. apply Hopen. by right.
Qed.
End WriteData.

(** X15.  Whatever its mode and its outcome, [write_data] leaves alone
    every file whose path is not the prefix, followed by something,
    followed by [.csv]. *)
Theorem write_data_touches {Frame Cols : Type}
    (loc_cols : Frame → Cols → result Frame) (writable : string → bool)
    (data : Frame)
    (prefix suffix mode : string) (kwargs : gmap string (list (string * Cols)))
    (files : gmap string Frame) (path : string) :
  (∀ middle, path ≠ prefix +:+ middle +:+ ".csv") →
  (General.write_data loc_cols writable data prefix suffix mode kwargs
     files).2 !! path
  = files !! path.
Proof.
  intros Hpath. unfold General.write_data, General.to_csv.
  repeat case_bool_decide; simpl.
  - destruct (writable _); [|done]. simpl.
    apply lookup_insert_ne. intros <-. by apply (Hpath ("_" +:+ suffix)).
  - destruct (writable _); [|done]. simpl.
    apply lookup_insert_ne. intros <-. by apply (Hpath "").
  - destruct (kwargs !! "df2cols") as [cols|]; [|done].
    apply write_cols_untouched. intros name _ <-.
    by apply (Hpath ("_" +:+ name +:+ "_" +:+ suffix)).
  - done.
  - done.
Qed.

Lemma write_data_touches_witness :
  (General.write_data Cases.select Cases.no_such_dir Cases.table "out" "v1"
     "multidf"
     {[ "df2cols" := [("left", ["a"; "b"]); ("right", ["c"])] ]}
     {[ "notes.txt" := Cases.table ]}).2 !! "notes.txt"
  = ({[ "notes.txt" := Cases.table ]} : gmap string _) !! "notes.txt".
Proof.
  apply write_data_touches. intros middle Heq.
  destruct middle; discriminate.
Defined.

(** X16.  In the mode ['multidf'], when every selection of columns
    succeeds and every file [prefix_name_suffix.csv] can be opened for
    writing, [write_data] raises nothing and, for every entry of
    ['df2cols'], the file [prefix_name_suffix.csv] holds the columns
    selected for that name. *)
Theorem write_data_multidf {Frame Cols : Type}
    (loc_cols : Frame → Cols → result Frame) (writable : string → bool)
    (data : Frame)
    (prefix suffix : string) (kwargs : gmap string (list (string * Cols)))
    (cols : list (string * Cols)) (subs : list Frame)
    (files : gmap string Frame) :
  kwargs !! "df2cols" = Some cols →
  NoDup cols.*1 →
  Forall2 (λ item sub, loc_cols data item.2 = Ok sub) cols subs →
  (∀ name, name ∈ cols.*1 →
     writable (prefix +:+ "_" +:+ name +:+ "_" +:+ suffix +:+ ".csv") = true) →
  let out := General.write_data loc_cols writable data prefix suffix "multidf"
               kwargs files in
  out.1 = Ok tt
  ∧ ∀ i name col sub,
      cols !! i = Some (name, col) → subs !! i = Some sub →
      out.2 !! (prefix +:+ "_" +:+ name +:+ "_" +:+ suffix +:+ ".csv")
      = Some sub.
Proof.
  intros Hkw Hnames Hsel Hopen. unfold General.write_data. simpl. rewrite Hkw.
  destruct (write_cols_Ok loc_cols writable data prefix suffix cols subs files
              Hsel) as [Hok Hfiles]; [|done|].
  { intros name Hname. rewrite multidf_path_eq. by apply Hopen. }
  split; [done|]. intros i name col sub Hi Hs.
  rewrite <- (Hfiles i name col sub Hi Hs). by rewrite multidf_path_eq.
Qed.

Lemma write_data_multidf_witness :
  let out := General.write_data Cases.select Cases.no_such_dir Cases.table
               "out" "v1" "multidf"
               {[ "df2cols" := [("left", ["a"; "b"]); ("right", ["c"])] ]}
               (∅ : gmap string _) in
  out.1 = Ok tt
  ∧ ∀ i name col sub,
      [("left", ["a"; "b"]); ("right", ["c"])] !! i = Some (name, col) →
      [[("a", [1; 2]%Z); ("b", [3; 4]%Z)]; [("c", [5; 6]%Z)]] !! i
        = Some sub →
      out.2 !! ("out" +:+ "_" +:+ name +:+ "_" +:+ "v1" +:+ ".csv")
      = Some sub.
Proof.
  apply (write_data_multidf Cases.select Cases.no_such_dir Cases.table
           "out" "v1"
           {[ "df2cols" := [("left", ["a"; "b"]); ("right", ["c"])] ]}
           [("left", ["a"; "b"]); ("right", ["c"])]).
  - reflexivity.
  - apply NoDup_ListNoDup. repeat constructor; simpl; intuition discriminate.
  - repeat constructor.
  - intros name Hname. reflexivity.
Defined.

(** X17.  In the mode ['multidf'], with the entries before it selected and
    written, the first entry whose selection of columns raises, or whose
    file cannot be opened for writing ([OSError]), stops [write_data] with
    that exception; the files of the entries before it are written as if
    they had been the only ones, and none of the later entries is looked
    at. *)
Theorem write_data_multidf_failure {Frame Cols : Type}
    (loc_cols : Frame → Cols → result Frame) (writable : string → bool)
    (data : Frame)
    (prefix suffix : string) (pre post : list (string * Cols))
    (subs : list Frame) (name : string) (col : Cols) (e : exn)
    (files : gmap string Frame) :
  Forall2 (λ item sub, loc_cols data item.2 = Ok sub) pre subs →
  (∀ name0, name0 ∈ pre.*1 →
     writable (prefix +:+ "_" +:+ name0 +:+ "_" +:+ suffix +:+ ".csv")
     = true) →
  loc_cols data col = Raise e
  ∨ ((∃ sub, loc_cols data col = Ok sub)
     ∧ writable (prefix +:+ "_" +:+ name +:+ "_" +:+ suffix +:+ ".csv")
       = false
     ∧ e = OSError) →
  General.write_data loc_cols writable data prefix suffix "multidf"
    {[ "df2cols" := pre ++ (name, col) :: post ]} files
  = (Raise e,
     (General.write_data loc_cols writable data prefix suffix "multidf"
        {[ "df2cols" := pre ]} files).2)
  ∧ (General.write_data loc_cols writable data prefix suffix "multidf"
       {[ "df2cols" := pre ]} files).1 = Ok tt.
Proof.
  intros Hsel Hopen Hcol. unfold General.write_data. simpl.
  rewrite !lookup_singleton_eq.
  apply (write_cols_stops loc_cols writable data prefix suffix pre post subs);
    [done | |].
  - intros name0 Hname0. rewrite multidf_path_eq. by apply Hopen.
  - destruct Hcol as [Hcol|(Hsub & Hclosed & ->)]; [by left|right].
    by rewrite multidf_path_eq.
Qed.

Lemma write_data_multidf_failure_witness :
  General.write_data Cases.select Cases.no_such_dir Cases.table "out" ""
    "multidf"
    {[ "df2cols" := [("left", ["a"])] ++ ("wrong", ["z"])
                    :: [("right", ["c"])] ]} (∅ : gmap string _)
  = (Raise KeyError,
     (General.write_data Cases.select Cases.no_such_dir Cases.table "out" ""
        "multidf"
        {[ "df2cols" := [("left", ["a"])] ]} (∅ : gmap string _)).2)
  ∧ (General.write_data Cases.select Cases.no_such_dir Cases.table "out" ""
       "multidf"
       {[ "df2cols" := [("left", ["a"])] ]} (∅ : gmap string _)).1 = Ok tt.
Proof.
  apply (write_data_multidf_failure Cases.select Cases.no_such_dir
           Cases.table "out" ""
           [("left", ["a"])] [("right", ["c"])] [[("a", [1; 2]%Z)]]).
  - repeat constructor.
  - intros name0 Hname0. reflexivity.
  - left. reflexivity.
Defined.

(** A prefix in a directory that does not exist: the first write raises
    [OSError] in either mode, and no file is written. *)
Example write_data_no_such_dir :
  General.write_data Cases.select Cases.no_such_dir Cases.table
    "/no/such/dir/out" "" "df" ∅ (∅ : gmap string _)
  = (Raise OSError, ∅)
  ∧ General.write_data Cases.select Cases.no_such_dir Cases.table
      "/no/such/dir/out" "v1" "multidf"
      {[ "df2cols" := [("left", ["a"; "b"]); ("right", ["c"])] ]}
      (∅ : gmap string _)
    = (Raise OSError, ∅).
Proof. split; vm_compute; reflexivity. Qed.

